(** * Election scraper (main.py): a shallow embedding and its properties

    The development follows the layout of [main.py]:
    - the text normaliser [clean_number] (with the interpreter's [int]);
    - the two extractors [scrape_municipalities_list] and
      [scrape_one_place_details], over the query interface of a parsed page;
    - the flattener [export_to_csv] (party collection, sort, row projection,
      column selection of the data frame);
    - the orchestrator [main], as a program over an event log.

    Text is a Rocq [string], one [ascii] per character of the Python [str]
    (code points 0..255, which contain the digits, the signs, the ordinary
    space and the non-breaking space U+00A0 that the program handles).  On
    codes, names and links the program only tests equality and emptiness, so
    that such a text may as well be read in any injective encoding.
    Python dictionaries are [gmap]s; the dictionary of one municipality,
    whose keys are fixed, is a record with optional fields.

    The libraries are modelled by what the program observes of them: a page
    by its queries; [urljoin] by the link it returns or its [ValueError]; a
    page request by its outcome (a page, a [RequestException], which
    [get_soup_from_url] catches, or another exception, which it does not);
    the data frame by its rows and its selection of columns; the write of the
    file by its outcome (written, an [IOError], which [export_to_csv]
    catches, or another exception, which it does not).  The command line is
    the pair of arguments of [main]; the progress bar is left out. *)

From Stdlib Require Import ZArith Ascii String List Permutation Sorted.
From stdpp Require Import gmap strings list fin_maps sorting.

Set Warnings "-clear-no-such-hyp".

Local Open Scope Z_scope.
Local Open Scope string_scope.

(** ** Constants of the module *)

Definition NON_BREAKING_SPACE : ascii := "160"%char.
Definition REGULAR_SPACE : ascii := " "%char.
Definition INVALID_PARTY_NAME : string := "-".

Definition HEADER_ROW_INDEX : nat := 1.
Definition MIN_CELLS_PER_ROW : nat := 3.
Definition PARTY_NUMBER_CELL_INDEX : nat := 0.
Definition PARTY_NAME_CELL_INDEX : nat := 1.
Definition PARTY_VOTES_CELL_INDEX : nat := 2.

Definition MAIN_TABLE_SELECTOR : string := "table.table tr".
Definition MUNICIPALITY_CODE_SELECTOR : string := "td.cislo a".
Definition MUNICIPALITY_NAME_SELECTOR : string := "td.overflow_name".
Definition REGISTERED_VOTERS_SELECTOR : string := "td[headers=sa2]".
Definition ENVELOPES_SELECTOR : string := "td[headers=sa3]".
Definition VALID_VOTES_SELECTOR : string := "td[headers=sa6]".
Definition PARTY_RESULTS_CONTAINER_SELECTOR : string := "div.t2_470".

Definition CODE_COLUMN : string := "code".
Definition LOCATION_COLUMN : string := "location".
Definition REGISTERED_COLUMN : string := "registered".
Definition ENVELOPES_COLUMN : string := "envelopes".
Definition VALID_COLUMN : string := "valid".

Definition DEFAULT_VOTES : Z := 0.
Definition DEFAULT_VALUE : string := "N/A".

(** ** The interpreter's [int(str)] in base 10

    [py_int s] is [Some z] when [int(s)] returns [z] and [None] when it raises
    [ValueError].  It follows CPython's [PyLong_FromUnicodeObject]: non-ASCII
    white space becomes a space and any other non-ASCII character that is no
    decimal digit ends the text with a question mark; then leading white space,
    an optional sign, digits with single underscores between them, trailing
    white space, and nothing else.  Texts of more than [int_max_str_digits]
    digits are refused. *)

Module PyInt.

Definition code (c : ascii) : N := N_of_ascii c.

(** [Py_ISSPACE]: the white space of the C locale. *)
Definition Py_ISSPACE (c : ascii) : bool :=
  ((9 <=? code c) && (code c <=? 13) || (code c =? 32))%N.

(** [Py_UNICODE_ISSPACE] on the characters from 127 to 255: NEL and NBSP. *)
Definition unicode_isspace (c : ascii) : bool :=
  ((code c =? 133) || (code c =? 160))%N.

Definition is_digit (c : ascii) : bool :=
  ((48 <=? code c) && (code c <=? 57))%N.

Definition digit_value (c : ascii) : Z := Z.of_N (code c) - 48.

Definition is_underscore (c : ascii) : bool := (code c =? 95)%N.

(** [_PyUnicode_TransformDecimalAndSpaceToASCII]. No character from 127 to
    255 is a decimal digit. *)
Fixpoint transform (s : list ascii) : list ascii :=
  match s with
  | [] => []
  | c :: s' =>
      if (code c <? 127)%N then c :: transform s'
      else if unicode_isspace c then " "%char :: transform s'
      else ["?"%char]
  end.

Fixpoint skip_space (s : list ascii) : list ascii :=
  match s with
  | c :: s' => if Py_ISSPACE c then skip_space s' else s
  | [] => []
  end.

(** The scanning loop of [long_from_string_base]: [prev] tells whether the
    previous character was an underscore, [acc] is the value of the digits
    read so far and [digits] their number.  [None] is the error exit. *)
Fixpoint scan (prev : bool) (acc : Z) (digits : nat) (s : list ascii)
  : option (Z * nat * list ascii) :=
  match s with
  | c :: s' =>
      if is_underscore c then
        if prev then None else scan true acc digits s'
      else if is_digit c then
        scan false (10 * acc + digit_value c) (S digits) s'
      else if prev then None else Some (acc, digits, s)
  | [] => if prev then None else Some (acc, digits, [])
  end.

(** Default of [sys.int_max_str_digits]. *)
Definition int_max_str_digits : nat := 4300.

Definition parse_sign (s : list ascii) : Z * list ascii :=
  match s with
  | c :: s' =>
      if Ascii.eqb c "+" then (1, s')
      else if Ascii.eqb c "-" then (-1, s')
      else (1, s)
  | [] => (1, [])
  end.

(** [PyLong_FromString] with base 10, followed by the check that the whole
    text was consumed. *)
Definition from_string (s : list ascii) : option Z :=
  let '(sign, s1) := parse_sign (skip_space s) in
  match s1 with
  | [] => None
  | c :: _ =>
      if is_underscore c then None
      else
        match scan false 0 0%nat s1 with
        | None => None
        | Some (v, digits, rest) =>
            if (digits =? 0)%nat then None
            else if (int_max_str_digits <? digits)%nat then None
            else
              match skip_space rest with
              | [] => Some (sign * v)
              | _ :: _ => None
              end
        end
  end.

End PyInt.

Definition py_int (s : string) : option Z :=
  PyInt.from_string (PyInt.transform (list_ascii_of_string s)).

(** ** Text Normalizer *)

(** [text.replace(old, '')] for a one-character [old]. *)
Fixpoint replace_with_empty (old : ascii) (text : string) : string :=
  match text with
  | EmptyString => EmptyString
  | String c rest =>
      if Ascii.eqb c old then replace_with_empty old rest
      else String c (replace_with_empty old rest)
  end.

(** The text that [clean_number] hands to [int]. *)
Definition cleaned_text (text : string) : string :=
  replace_with_empty REGULAR_SPACE (replace_with_empty NON_BREAKING_SPACE text).

(** [clean_number(text)]; [None] is Python's [None]. The [try] block turns
    the [ValueError] of [int] into [DEFAULT_VOTES]. *)
Definition clean_number (text : option string) : Z :=
  match text with
  | None => DEFAULT_VOTES
  | Some "" => DEFAULT_VOTES
  | Some text =>
      match py_int (cleaned_text text) with
      | Some number => number
      | None => DEFAULT_VOTES
      end
  end.

(** Python's truth value of a [str]. *)
Definition truthy (s : string) : bool := negb (String.eqb s "").

(** ** Parsed pages

    A parsed page (BeautifulSoup) is seen through the four queries the program
    makes: [tag.get(name)], [tag.get_text(strip=b)], [tag.select(selector)]
    and [tag.find_all(name)].  A [Tag] object is always true in Python, so that
    [if tag] tests for [None] only.  (The selectors above are written without
    their inner quotation marks.) *)

Module bs4.

#[warnings="-register-all"] Inductive Tag : Type := mkTag {
  get : string -> option string;
  get_text : bool -> string;
  select : string -> list Tag;
  find_all : string -> list Tag
}.

Definition select_one (t : Tag) (selector : string) : option Tag :=
  head (select t selector).

Definition find (t : Tag) (name : string) : option Tag :=
  head (find_all t name).

(** A leaf cell with the given text (already stripped). *)
Definition text_tag (s : string) : Tag :=
  mkTag (fun _ => None) (fun _ => s) (fun _ => []) (fun _ => []).

End bs4.
Import bs4.

(** ** Data model *)

(** [{'nazev': party_name, 'hlasy': votes}] *)
Record party_info := mkParty { nazev : string; hlasy : Z }.

(** The dictionary of one municipality.  The listing extractor fills [code],
    [location] and [link]; [scrape_one_place_details] returns a dictionary
    with the other four keys, which [dict.update] merges into the first. *)
Record municipality := mkMunicipality {
  code : option string;
  location : option string;
  link : option string;
  registered : option Z;
  envelopes : option Z;
  valid : option Z;
  parties : option (gmap string party_info)
}.

#[global] Instance party_info_eq_dec : EqDecision party_info.
Proof. solve_decision. Defined.
#[global] Instance municipality_eq_dec : EqDecision municipality.
Proof. solve_decision. Defined.

(** [{'code': code, 'location': name, 'link': full_link}] *)
Definition stub (code name full_link : string) : municipality :=
  mkMunicipality (Some code) (Some name) (Some full_link) None None None None.

(** [d.update(e)]: the keys of [e] are set in [d]. *)
Definition update (d e : municipality) : municipality :=
  let pick {A} (new old : option A) :=
    match new with Some _ => new | None => old end in
  mkMunicipality
    (pick (code e) (code d)) (pick (location e) (location d))
    (pick (link e) (link d)) (pick (registered e) (registered d))
    (pick (envelopes e) (envelopes d)) (pick (valid e) (valid d))
    (pick (parties e) (parties d)).

(** Truth value of a dictionary: it has a key. *)
Definition dict_truthy (d : municipality) : bool :=
  bool_decide (is_Some (code d)) || bool_decide (is_Some (location d)) ||
  bool_decide (is_Some (link d)) || bool_decide (is_Some (registered d)) ||
  bool_decide (is_Some (envelopes d)) || bool_decide (is_Some (valid d)) ||
  bool_decide (is_Some (parties d)).

(** ** Detail Extractor *)

(** [party_name and party_name != INVALID_PARTY_NAME] *)
Definition valid_party_name (party_name : string) : bool :=
  truthy party_name && negb (String.eqb party_name INVALID_PARTY_NAME).

(** Body of the inner loop, for one [row] of a party table: [cells] has at
    least [MIN_CELLS_PER_ROW] elements exactly when it has cells 0, 1, 2. *)
Definition scrape_party_row (parties : gmap string party_info) (row : Tag)
  : gmap string party_info :=
  match find_all row "td" with
  | c0 :: c1 :: c2 :: _ =>
      let party_number := get_text c0 true in
      let party_name := get_text c1 true in
      let votes_text := get_text c2 true in
      let votes := clean_number (Some votes_text) in
      if valid_party_name party_name
      then <[party_number := mkParty party_name votes]> parties
      else parties
  | _ => parties
  end.

(** Body of the outer loop, for one [div.t2_470] container. *)
Definition scrape_party_table (parties : gmap string party_info)
    (table_container : Tag) : gmap string party_info :=
  match find table_container "table" with
  | None => parties
  | Some table =>
      let table_rows := drop HEADER_ROW_INDEX (find_all table "tr") in
      fold_left scrape_party_row table_rows parties
  end.

Definition scrape_field (soup : Tag) (selector : string) : Z :=
  match select_one soup selector with
  | Some element => clean_number (Some (get_text element false))
  | None => DEFAULT_VOTES
  end.

Definition scrape_one_place_details (detail_soup : option Tag)
  : option municipality :=
  match detail_soup with
  | None => None
  | Some detail_soup =>
      let result_tables := select detail_soup PARTY_RESULTS_CONTAINER_SELECTOR in
      Some {|
        code := None; location := None; link := None;
        registered := Some (scrape_field detail_soup REGISTERED_VOTERS_SELECTOR);
        envelopes := Some (scrape_field detail_soup ENVELOPES_SELECTOR);
        valid := Some (scrape_field detail_soup VALID_VOTES_SELECTOR);
        parties := Some (fold_left scrape_party_table result_tables ∅)
      |}
  end.

(** ** Exceptions and results *)

(** The exceptions that leave a function of the program: [ValueError] from
    [int] and from [urljoin], [KeyError] from a missing dictionary key or
    data-frame column, and any other exception class, given by its name, that
    a library call raises (urllib3's [LocationParseError] from [requests.get],
    [ImportError] from [to_csv], ...). *)
Inductive exn := ValueError | KeyError | OtherError (name : string).

Inductive result (A : Type) : Type :=
| Ok (a : A)
| Raise (e : exn).
Arguments Ok {A} a.
Arguments Raise {A} e.

#[global] Instance result_ret : MRet result := fun A a => Ok a.
#[global] Instance result_bind : MBind result := fun A B f r =>
  match r with Ok a => f a | Raise e => Raise e end.

(** ** Flattener / Exporter: the table *)

(** A value of the data frame: text, an integer, or the missing value. *)
Inductive cell := CStr (s : string) | CInt (z : Z) | NaN.

#[global] Instance cell_eq_dec : EqDecision cell.
Proof. solve_decision. Defined.

(** ['parties' in municipality and municipality['parties']]: the mapping,
    when the key is there and the mapping is not empty. *)
Definition has_parties (m : municipality) : option (gmap string party_info) :=
  match parties m with
  | Some ps => if decide (ps = ∅) then None else Some ps
  | None => None
  end.

(** Step 1: the first name seen for a party number is kept. *)
Definition collect_party (party_number : string) (info : party_info)
    (all_parties : gmap string string) : gmap string string :=
  if decide (is_Some (all_parties !! party_number)) then all_parties
  else <[party_number := nazev info]> all_parties.

Definition collect_parties (all_parties : gmap string string)
    (m : municipality) : gmap string string :=
  match has_parties m with
  | Some ps => map_fold collect_party all_parties ps
  | None => all_parties
  end.

Definition collect_all_parties (municipalities_data : list municipality)
  : gmap string string :=
  fold_left collect_parties municipalities_data ∅.

(** Step 2: the elements of [temp_list_to_sort]. *)
Definition sort_item : Type := Z * (string * string).

Fixpoint temp_list (items : list (string * string)) : result (list sort_item) :=
  match items with
  | [] => Ok []
  | (party_number_text, party_name) :: rest =>
      match py_int party_number_text with
      | None => Raise ValueError
      | Some number =>
          l ← temp_list rest;
          Ok ((number, (party_number_text, party_name)) :: l)
      end
  end.

(** Python's [<] on these tuples: the first components that differ decide;
    text is compared character by character. *)
Definition tuple_lt (a b : sort_item) : bool :=
  let '(n1, (id1, name1)) := a in
  let '(n2, (id2, name2)) := b in
  if (n1 =? n2)%Z then
    if String.eqb id1 id2 then String.ltb name1 name2
    else String.ltb id1 id2
  else (n1 <? n2)%Z.

(** [list.sort()]: a stable sort that only uses [<]. *)
Fixpoint insert_sorted (x : sort_item) (l : list sort_item) : list sort_item :=
  match l with
  | [] => [x]
  | y :: l' => if tuple_lt x y then x :: l else y :: insert_sorted x l'
  end.

Definition list_sort (l : list sort_item) : list sort_item :=
  fold_left (fun sorted x => insert_sorted x sorted) l [].

Definition sort_parties (all_parties : gmap string string)
  : result (list (string * string)) :=
  temp_list_to_sort ← temp_list (map_to_list all_parties);
  Ok (snd <$> list_sort temp_list_to_sort).

(** Step 3 *)
Definition base_columns : list string :=
  [CODE_COLUMN; LOCATION_COLUMN; REGISTERED_COLUMN; ENVELOPES_COLUMN;
   VALID_COLUMN].

(** [municipality.get(column)] for a base column. *)
Definition municipality_get (m : municipality) (column : string)
  : option cell :=
  if String.eqb column CODE_COLUMN then CStr <$> code m
  else if String.eqb column LOCATION_COLUMN then CStr <$> location m
  else if String.eqb column REGISTERED_COLUMN then CInt <$> registered m
  else if String.eqb column ENVELOPES_COLUMN then CInt <$> envelopes m
  else if String.eqb column VALID_COLUMN then CInt <$> valid m
  else None.

Definition party_votes (m : municipality) (party_number : string) : Z :=
  match has_parties m with
  | Some ps =>
      match ps !! party_number with
      | Some info => hlasy info
      | None => DEFAULT_VOTES
      end
  | None => DEFAULT_VOTES
  end.

Definition make_csv_row (sorted_parties : list (string * string))
    (m : municipality) : gmap string cell :=
  let csv_row :=
    fold_left
      (fun row column =>
         <[column := default (CStr DEFAULT_VALUE) (municipality_get m column)]> row)
      base_columns ∅ in
  fold_left
    (fun row '(party_number, party_name) =>
       <[party_name := CInt (party_votes m party_number)]> row)
    sorted_parties csv_row.

(** Step 4: [pd.DataFrame(csv_data)] and [dataframe[final_column_order]].
    The frame has the keys of its rows as columns; selecting a label that is
    no column raises [KeyError]; a row without a key holds [NaN] there. *)
Definition DataFrame : Type := list (gmap string cell).

Definition frame_columns (dataframe : DataFrame) : gset string :=
  ⋃ (dom <$> dataframe).

Record table := mkTable { header : list string; body : list (list cell) }.

Definition frame_getitem (dataframe : DataFrame) (labels : list string)
  : result table :=
  if decide (Forall (fun c => c ∈ frame_columns dataframe) labels)
  then Ok (mkTable labels
             ((fun row => (fun c => default NaN (row !! c)) <$> labels)
                <$> dataframe))
  else Raise KeyError.

(** Steps 1 to 4 of [export_to_csv], up to the frame that is written. *)
Definition export_table (municipalities_data : list municipality)
  : result table :=
  let all_parties := collect_all_parties municipalities_data in
  sorted_parties ← sort_parties all_parties;
  let csv_data := make_csv_row sorted_parties <$> municipalities_data in
  let party_columns := snd <$> sorted_parties in
  let final_column_order := (base_columns ++ party_columns)%list in
  frame_getitem csv_data final_column_order.

(** ** Effects: the event log of a run

    A run prints messages, requests pages and writes one file.  A program is a
    function from the log so far to its result and the extended log. *)

(** What is printed, without the wording (given in the comments). *)
Inductive message :=
| MsgDownloadError            (* CHYBA: Nepodarilo se stahnout stranku *)
| MsgFound (n : nat)          (* Nalezeno n obci ke zpracovani. *)
| MsgExporting (filename : string) (* Exportuji data do souboru *)
| MsgSaved (filename : string)     (* Data byla uspesne ulozena do *)
| MsgWriteError               (* CHYBA: Nepodarilo se zapsat do souboru *)
| MsgDownloadingMain          (* Stahuji hlavni stranku... *)
| MsgMainPageFailed           (* Nepodarilo se stahnout hlavni stranku. *)
| MsgGettingList              (* Ziskavam seznam obci... *)
| MsgNoMunicipalities         (* Nebyly nalezeny zadne obce. *)
| MsgDetailsStart             (* Zahajuji stahovani detailu pro vsechny obce *)
| MsgDetailsDone              (* Stahovani detailu dokonceno. *)
| MsgProgramDone.             (* Program uspesne dokoncen. *)

Inductive event :=
| Print (m : message)
| Get (url : string) (ok : bool)
| ToCsv (filename : string) (dataframe : table) (ok : bool).

Definition is_get (e : event) : bool :=
  match e with Get _ _ => true | _ => false end.

Definition is_to_csv (e : event) : bool :=
  match e with ToCsv _ _ _ => true | _ => false end.

(** Number of page requests made so far. *)
Definition requests_made (log : list event) : nat :=
  length (filter is_get log).

Definition prog (A : Type) : Type := list event -> result A * list event.

Definition ret {A} (a : A) : prog A := fun log => (Ok a, log).

Definition bind {A B} (c : prog A) (k : A -> prog B) : prog B :=
  fun log =>
    match c log with
    | (Ok a, log') => k a log'
    | (Raise e, log') => (Raise e, log')
    end.

Definition lift {A} (r : result A) : prog A := fun log => (r, log).

Definition emit (e : event) : prog unit := fun log => (Ok tt, (log ++ [e])%list).

Definition print (m : message) : prog unit := emit (Print m).

Declare Scope prog_scope.
Delimit Scope prog_scope with prog.
Notation "x <- c1 ;; c2" := (bind c1 (fun x => c2))
  (at level 100, c1 at next level, right associativity) : prog_scope.
Notation "c1 ;; c2" := (bind c1 (fun _ => c2))
  (at level 100, right associativity) : prog_scope.

(** [for x in xs: x = body(x)], the updated elements in order. *)
Fixpoint for_each {A} (body : A -> prog A) (xs : list A) : prog (list A) :=
  match xs with
  | [] => ret []
  | x :: xs' =>
      (x' <- body x ;; xs'' <- for_each body xs' ;; ret (x' :: xs''))%prog
  end.

(** ** Listing Extractor: the body of the loop over the rows *)

Section Listing.

(** [urllib.parse.urljoin]: the resolved link, or [None] when it raises
    [ValueError] (as for the href [//[bad], no valid IPv6 address). *)
Variable urljoin : string -> string -> option string.

Definition scrape_row (base_url : string) (municipalities : list municipality)
    (row : Tag) : result (list municipality) :=
  match select_one row MUNICIPALITY_CODE_SELECTOR,
        select_one row MUNICIPALITY_NAME_SELECTOR with
  | Some link_element, Some name_element =>
      let href := get link_element "href" in
      let code := get_text link_element true in
      let name := get_text name_element true in
      match href with
      | Some href =>
          if truthy href && truthy code && truthy name then
            match urljoin base_url href with
            | Some full_link =>
                Ok (municipalities ++ [stub code name full_link])%list
            | None => Raise ValueError
            end
          else Ok municipalities
      | None => Ok municipalities
      end
  | _, _ => Ok municipalities
  end.

(** The loop over the rows; an exception of a row ends it. *)
Fixpoint scrape_rows_from (base_url : string) (table_rows : list Tag)
    (municipalities : list municipality) : result (list municipality) :=
  match table_rows with
  | [] => Ok municipalities
  | row :: table_rows' =>
      municipalities' ← scrape_row base_url municipalities row;
      scrape_rows_from base_url table_rows' municipalities'
  end.

Definition scrape_rows (base_url : string) (table_rows : list Tag)
  : result (list municipality) :=
  scrape_rows_from base_url table_rows [].

Definition scrape_municipalities_list (main_page_soup : Tag)
    (base_url : string) : prog (list municipality) :=
  let table_rows := select main_page_soup MAIN_TABLE_SELECTOR in
  (municipalities <- lift (scrape_rows base_url table_rows) ;;
   print (MsgFound (length municipalities)) ;;
   ret municipalities)%prog.

End Listing.

(** ** Orchestrator *)

(** What the body of [try] in [get_soup_from_url] does: the page is
    downloaded and parsed; or [requests.get] or [raise_for_status] raises a
    [RequestException]; or another exception leaves it (urllib3's
    [LocationParseError] for a host such as [a..b], an error of the parser). *)
Inductive response :=
| Page (soup : Tag)
| RequestException
| Raises (e : exn).

(** What [DataFrame.to_csv] does: the file is written; or it raises an
    [IOError]; or another exception ([ValueError] for a null character in the
    name, [ImportError] for a compression that is not installed). *)
Inductive write_result :=
| Written
| IOError
| WriteRaises (e : exn).

Section Run.

(** The outside world of a run: how links are resolved, what the [n]-th page
    request of the run does, and what writing a frame to a file does. *)
Variable urljoin : string -> string -> option string.
Variable requests_get : nat -> string -> response.
Variable to_csv : string -> table -> write_result.

Definition get_soup_from_url (url : string) : prog (option Tag) :=
  fun log =>
    match requests_get (requests_made log) url with
    | Page soup => (Ok (Some soup), (log ++ [Get url true])%list)
    | RequestException =>
        (Ok None, (log ++ [Get url false; Print MsgDownloadError])%list)
    | Raises e => (Raise e, (log ++ [Get url false])%list)
    end.

(** [dataframe.to_csv(...)] inside [try ... except IOError]: whether the file
    was written; an exception that is no [IOError] is not caught. *)
Definition dataframe_to_csv (dataframe : table) (filename : string)
  : prog bool :=
  fun log =>
    match to_csv filename dataframe with
    | Written => (Ok true, (log ++ [ToCsv filename dataframe true])%list)
    | IOError => (Ok false, (log ++ [ToCsv filename dataframe false])%list)
    | WriteRaises e =>
        (Raise e, (log ++ [ToCsv filename dataframe false])%list)
    end.

Definition export_to_csv (municipalities_data : list municipality)
    (output_filename : string) : prog unit :=
  (print (MsgExporting output_filename) ;;
   dataframe <- lift (export_table municipalities_data) ;;
   ok <- dataframe_to_csv dataframe output_filename ;;
   if ok then print (MsgSaved output_filename) else print MsgWriteError)%prog.

(** Body of the loop of [main] over the municipalities. *)
Definition fetch_details (m : municipality) : prog municipality :=
  match link m with
  | None => lift (Raise KeyError)
  | Some url =>
      (detail_soup <- get_soup_from_url url ;;
       match detail_soup with
       | Some soup =>
           match scrape_one_place_details (Some soup) with
           | Some election_details =>
               if dict_truthy election_details
               then ret (update m election_details)
               else ret m
           | None => ret m
           end
       | None => ret m
       end)%prog
  end.

Definition main (url filename : string) : prog unit :=
  (print MsgDownloadingMain ;;
   main_page_soup <- get_soup_from_url url ;;
   match main_page_soup with
   | None => print MsgMainPageFailed
   | Some main_page_soup =>
       print MsgGettingList ;;
       municipalities <- scrape_municipalities_list urljoin main_page_soup url ;;
       match municipalities with
       | [] => print MsgNoMunicipalities
       | _ :: _ =>
           print MsgDetailsStart ;;
           municipalities <- for_each fetch_details municipalities ;;
           print MsgDetailsDone ;;
           export_to_csv municipalities filename ;;
           print MsgProgramDone
       end
   end)%prog.

End Run.

(** * Vocabulary of the properties *)

(** [text] holds a minus sign. *)
Definition has_minus (text : option string) : Prop :=
  match text with
  | Some s => "-"%char ∈ list_ascii_of_string s
  | None => False
  end.

(** [text] without its ordinary and non-breaking spaces. *)
Definition without_spaces (text : string) : string :=
  string_of_list_ascii
    (filter (fun c => c <> REGULAR_SPACE /\ c <> NON_BREAKING_SPACE)
       (list_ascii_of_string text)).

(** ** Vocabulary: the listing *)

(** A row of the listing is complete when it has the code-and-link element
    and the name element, and its href, code and name are not empty. *)
Definition row_complete (row : Tag) : Prop :=
  exists link_element name_element href,
    select_one row MUNICIPALITY_CODE_SELECTOR = Some link_element /\
    select_one row MUNICIPALITY_NAME_SELECTOR = Some name_element /\
    get link_element "href" = Some href /\
    href <> "" /\ get_text link_element true <> "" /\
    get_text name_element true <> "".

#[global] Instance row_complete_dec row : Decision (row_complete row).
Proof.
  unfold row_complete.
  destruct (select_one row MUNICIPALITY_CODE_SELECTOR) as [l|];
    [|right; intros (?&?&?&?&?); discriminate].
  destruct (select_one row MUNICIPALITY_NAME_SELECTOR) as [n|];
    [|right; intros (?&?&?&?&?&?); discriminate].
  destruct (get l "href") as [h|] eqn:Hh;
    [|right; intros (?&?&?&[= <-]&?&?&?); congruence].
  destruct (decide (h <> "" /\ get_text l true <> "" /\ get_text n true <> ""))
    as [Hd|Hd].
  - left. exists l, n, h. tauto.
  - right. intros (?&?&?&[= <-]&[= <-]&Hh'&?). apply Hd.
    rewrite Hh in Hh'. injection Hh' as <-. tauto.
Defined.

(** The code, the name and the href of a row. *)
Definition row_code (row : Tag) : string :=
  default "" ((fun t => get_text t true) <$>
                select_one row MUNICIPALITY_CODE_SELECTOR).
Definition row_name (row : Tag) : string :=
  default "" ((fun t => get_text t true) <$>
                select_one row MUNICIPALITY_NAME_SELECTOR).
Definition row_href (row : Tag) : string :=
  default "" (select_one row MUNICIPALITY_CODE_SELECTOR ≫= fun t => get t "href").

(** [urljoin] resolves the href of the row against the base URL. *)
Definition row_resolves (urljoin : string -> string -> option string)
    (base_url : string) (row : Tag) : Prop :=
  is_Some (urljoin base_url (row_href row)).

#[global] Instance row_resolves_dec urljoin base_url row :
  Decision (row_resolves urljoin base_url row).
Proof. unfold row_resolves. apply _. Defined.

(** The record of the code of the row, its name and its resolved href. *)
Definition row_stub (urljoin : string -> string -> option string)
    (base_url : string) (row : Tag) : municipality :=
  {| code := Some (row_code row); location := Some (row_name row);
     link := urljoin base_url (row_href row);
     registered := None; envelopes := None; valid := None; parties := None |}.

(** [m] is the stub of the row: it holds the code of the row, its name and
    its href resolved against the base URL, and none of the detail keys. *)
Definition is_stub_of (urljoin : string -> string -> option string)
    (base_url : string) (row : Tag) (m : municipality) : Prop :=
  code m = Some (row_code row) /\
  location m = Some (row_name row) /\
  (exists full_link,
     urljoin base_url (row_href row) = Some full_link /\
     link m = Some full_link) /\
  registered m = None /\ envelopes m = None /\ valid m = None /\
  parties m = None.

(** ** Vocabulary: the detail page *)

(** The party rows of a detail page in document order: the rows after the
    header row of the table of every results container that has a table. *)
Definition party_rows (detail_soup : Tag) : list Tag :=
  mjoin
    ((fun table_container =>
        match find table_container "table" with
        | Some table => drop HEADER_ROW_INDEX (find_all table "tr")
        | None => []
        end) <$> select detail_soup PARTY_RESULTS_CONTAINER_SELECTOR).

(** A row qualifies when it has at least [MIN_CELLS_PER_ROW] cells. *)
Definition qualifies (row : Tag) : Prop :=
  (MIN_CELLS_PER_ROW <= length (find_all row "td"))%nat.

(** Party identifier, party name and votes of a row: the texts of its cells
    0, 1 and 2, the last one as a number. *)
Definition row_party_number (row : Tag) : string :=
  default "" ((fun c => get_text c true) <$>
                find_all row "td" !! PARTY_NUMBER_CELL_INDEX).
Definition row_party_name (row : Tag) : string :=
  default "" ((fun c => get_text c true) <$>
                find_all row "td" !! PARTY_NAME_CELL_INDEX).
Definition row_votes (row : Tag) : Z :=
  clean_number ((fun c => get_text c true) <$>
                  find_all row "td" !! PARTY_VOTES_CELL_INDEX).

(** The name of a party is acceptable: not empty and not the sentinel. *)
Definition name_ok (party_name : string) : Prop :=
  party_name <> "" /\ party_name <> INVALID_PARTY_NAME.

(** The mapping of the parties that [scrape_one_place_details] returns. *)
Definition parties_of_page (detail_soup : Tag) : gmap string party_info :=
  default ∅ (scrape_one_place_details (Some detail_soup) ≫= parties).

(** ** Vocabulary: the export *)

(** The mapping of the parties of a record; empty without the key. *)
Definition record_parties (m : municipality) : gmap string party_info :=
  default ∅ (parties m).

(** The vote count of a record for a party if present, and 0 otherwise. *)
Definition votes_or_zero (m : municipality) (party_number : string) : Z :=
  from_option hlasy 0 (record_parties m !! party_number).

(** The party ids of all the records. *)
Definition all_party_ids (municipalities_data : list municipality)
  : gset string :=
  ⋃ ((fun m => dom (record_parties m)) <$> municipalities_data).

(** Neighbours after the sort: the second is not below the first. *)
Definition not_above (a b : sort_item) : Prop := tuple_lt b a = false.

(** The row dictionary after the loop over the base columns. *)
Definition base_row (m : municipality) : gmap string cell :=
  fold_left
    (fun row column =>
       <[column := default (CStr DEFAULT_VALUE) (municipality_get m column)]> row)
    base_columns ∅.

(** The cells of a record under the given labels. *)
Definition row_cells (sorted_parties : list (string * string))
    (labels : list string) (m : municipality) : list cell :=
  (fun c => default NaN (make_csv_row sorted_parties m !! c)) <$> labels.

(** ** Sample records *)

Definition sample_record (code name : string)
    (ps : list (string * party_info)) : municipality :=
  mkMunicipality (Some code) (Some name) (Some "link") (Some 10) (Some 9)
    (Some 8) (Some (list_to_map ps)).

(** Two parties of one name. *)
Definition same_name_record : municipality :=
  sample_record "A" "Alpha" [("1", mkParty "X" 100); ("2", mkParty "X" 50)].

(** Two party ids that denote the same integer. *)
Definition leading_zero_record : municipality :=
  sample_record "A" "Alpha"
    [("1", mkParty "PartyX" 100); ("01", mkParty "PartyY" 50)].

(** A party id that is no integer. *)
Definition bad_id_record : municipality :=
  sample_record "A" "Alpha" [("12a", mkParty "PartyX" 100)].

(** The records of the scenario of two municipalities. *)
Definition record_A : municipality :=
  sample_record "A" "Alpha"
    [("1", mkParty "PartyX" 100); ("2", mkParty "PartyY" 50)].
Definition record_B : municipality :=
  sample_record "B" "Bravo" [("2", mkParty "PartyY" 30)].

(** ** Vocabulary: the run *)

(** The page of a request, when it was served; the exception of a request,
    when one left [get_soup_from_url]. *)
Definition fetched (r : response) : option Tag :=
  match r with Page soup => Some soup | _ => None end.

Definition raised (r : response) : option exn :=
  match r with Raises e => Some e | _ => None end.

(** The record of a municipality after its detail request returned [page]. *)
Definition with_details (m : municipality) (page : option Tag) : municipality :=
  match page ≫= fun soup => scrape_one_place_details (Some soup) with
  | Some election_details => update m election_details
  | None => m
  end.

(** What a page request to [url] with outcome [r] adds to the log. *)
Definition request_events (url : string) (r : response) : list event :=
  match r with
  | Page _ => [Get url true]
  | RequestException => [Get url false; Print MsgDownloadError]
  | Raises _ => [Get url false]
  end.

(** The position in [ms] and the exception of the first detail request that
    raises, when [n] requests were made before the loop. *)
Fixpoint first_raise (requests_get : nat -> string -> response) (n : nat)
    (ms : list municipality) : option (nat * exn) :=
  match ms with
  | [] => None
  | m :: ms' =>
      match raised (requests_get n (default "" (link m))) with
      | Some e => Some (O, e)
      | None => prod_map S id <$> first_raise requests_get (S n) ms'
      end
  end.

(** The records and the log of the detail loop over [ms], when [n] requests
    were made before it and no request raises. *)
Fixpoint detail_records (requests_get : nat -> string -> response) (n : nat)
    (ms : list municipality) : list municipality :=
  match ms with
  | [] => []
  | m :: ms' =>
      with_details m (fetched (requests_get n (default "" (link m))))
        :: detail_records requests_get (S n) ms'
  end.

Fixpoint detail_log (requests_get : nat -> string -> response) (n : nat)
    (ms : list municipality) : list event :=
  match ms with
  | [] => []
  | m :: ms' =>
      (request_events (default "" (link m))
         (requests_get n (default "" (link m)))
       ++ detail_log requests_get (S n) ms')%list
  end.

(** The log of a run up to the detail loop. *)
Definition prelude (url : string) (found : nat) : list event :=
  [Print MsgDownloadingMain; Get url true; Print MsgGettingList;
   Print (MsgFound found); Print MsgDetailsStart].

(** ** Sample pages *)

Definition element (text : string) (href : option string) : Tag :=
  mkTag (fun k => if String.eqb k "href" then href else None)
        (fun _ => text) (fun _ => []) (fun _ => []).

Definition listing_row (link_element name_element : option Tag) : Tag :=
  mkTag (fun _ => None) (fun _ => "")
    (fun selector =>
       if String.eqb selector MUNICIPALITY_CODE_SELECTOR
       then option_list link_element
       else if String.eqb selector MUNICIPALITY_NAME_SELECTOR
       then option_list name_element
       else [])
    (fun _ => []).

Definition listing_page (rows : list Tag) : Tag :=
  mkTag (fun _ => None) (fun _ => "")
    (fun selector =>
       if String.eqb selector MAIN_TABLE_SELECTOR then rows else [])
    (fun _ => []).

Definition party_row (cells : list string) : Tag :=
  mkTag (fun _ => None) (fun _ => "") (fun _ => [])
    (fun name => if String.eqb name "td" then text_tag <$> cells else []).

(** A results container with one table of the given rows. *)
Definition results_table (rows : list Tag) : Tag :=
  let table :=
    mkTag (fun _ => None) (fun _ => "") (fun _ => [])
      (fun name => if String.eqb name "tr" then rows else []) in
  mkTag (fun _ => None) (fun _ => "") (fun _ => [])
    (fun name => if String.eqb name "table" then [table] else []).

Definition detail_page (registered envelopes valid : option string)
    (tables : list Tag) : Tag :=
  mkTag (fun _ => None) (fun _ => "")
    (fun selector =>
       if String.eqb selector REGISTERED_VOTERS_SELECTOR
       then option_list (text_tag <$> registered)
       else if String.eqb selector ENVELOPES_SELECTOR
       then option_list (text_tag <$> envelopes)
       else if String.eqb selector VALID_VOTES_SELECTOR
       then option_list (text_tag <$> valid)
       else if String.eqb selector PARTY_RESULTS_CONTAINER_SELECTOR
       then tables
       else [])
    (fun _ => []).

(** A listing of Alpha and Bravo, with a header row and a row without name. *)
Definition sample_listing : Tag :=
  listing_page
    [listing_row None None;
     listing_row (Some (element "A" (Some "linkA"))) (Some (element "Alpha" None));
     listing_row (Some (element "X" (Some "linkX"))) (Some (element "" None));
     listing_row (Some (element "B" (Some "linkB"))) (Some (element "Bravo" None))].

(** A listing without a complete row. *)
Definition empty_listing : Tag :=
  listing_page
    [listing_row None None;
     listing_row (Some (element "X" None)) (Some (element "Xray" None))].

(** The detail page of Alpha: party 1 appears twice, party 3 has no name. *)
Definition sample_detail : Tag :=
  detail_page (Some "1 000") (Some "900") None
    [results_table
       [party_row []; party_row ["1"; "PartyX"; "99"];
        party_row ["2"; "PartyY"; "50"]; party_row ["3"; "-"; "7"]];
     results_table
       [party_row []; party_row ["1"; "PartyX"; "100"]; party_row ["4"; "P"]]].

(** A page without any of the elements. *)
Definition blank_page : Tag := detail_page None None None [].

Definition sample_urljoin (base_url href : string) : option string :=
  Some (base_url ++ href).

(** A listing whose one row is complete, with a href that [urljoin] refuses,
    and a [urljoin] that refuses it. *)
Definition bad_href : string := "//[bad".

Definition bad_href_listing : Tag :=
  listing_page
    [listing_row (Some (element "A" (Some bad_href))) (Some (element "Alpha" None))].

Definition strict_urljoin (base_url href : string) : option string :=
  if String.eqb href bad_href then None else Some (base_url ++ href).

(** A world in which the listing and the first detail page are served, and
    every later request fails with a [RequestException]. *)
Definition sample_requests_get (n : nat) (url : string) : response :=
  match n with
  | O => Page sample_listing
  | S O => Page sample_detail
  | _ => RequestException
  end.

(** A world in which the listing and the first detail page are served, and
    every later request raises urllib3's [LocationParseError]. *)
Definition unparsable_requests_get (n : nat) (url : string) : response :=
  match n with
  | O => Page sample_listing
  | S O => Page sample_detail
  | _ => Raises (OtherError "LocationParseError")
  end.

(** A world that serves a listing without complete rows. *)
Definition empty_requests_get (n : nat) (url : string) : response :=
  Page empty_listing.

Definition disk_ok (filename : string) (dataframe : table) : write_result :=
  Written.
Definition disk_full (filename : string) (dataframe : table) : write_result :=
  IOError.
(** A [to_csv] that raises [ImportError]. *)
Definition disk_unsupported (filename : string) (dataframe : table)
  : write_result := WriteRaises (OtherError "ImportError").

(** The message of a successful write. *)
Definition is_saved (e : event) : bool :=
  match e with Print (MsgSaved _) => true | _ => false end.

(** Neither a write attempt nor the message of a successful write. *)
Definition no_write (e : event) : Prop :=
  is_to_csv e = false /\ is_saved e = false.

(** ** Vocabulary: further properties *)

(** The decimal digits of a text, in order, and the number they denote. *)
Definition digits_of (text : string) : list ascii :=
  filter (fun c => PyInt.is_digit c = true) (list_ascii_of_string text).

Definition decimal_value (digits : list ascii) : Z :=
  fold_left (fun acc c => 10 * acc + PyInt.digit_value c) digits 0.

(** A character of a number with separators: a digit or one of the spaces. *)
Definition digit_or_space (c : ascii) : Prop :=
  PyInt.is_digit c = true \/ c = REGULAR_SPACE \/ c = NON_BREAKING_SPACE.

(** The addresses requested in a log, in order. *)
Definition requested_urls (log : list event) : list string :=
  omap (fun e => match e with Get url _ => Some url | _ => None end) log.

(** The value of a base column of a record in the table. *)
Definition base_cell (m : municipality) (column : string) : cell :=
  default (CStr DEFAULT_VALUE) (municipality_get m column).

(** Two records that give party 2 different names. *)
Definition record_B_renamed : municipality :=
  sample_record "B" "Bravo" [("2", mkParty "Other" 30)].

(** A world in which every request fails with a [RequestException], and one
    in which every request raises urllib3's [LocationParseError]. *)
Definition offline_requests_get (n : nat) (url : string) : response :=
  RequestException.

Definition unparsable_host_requests_get (n : nat) (url : string) : response :=
  Raises (OtherError "LocationParseError").

(** The part of a sort tuple that decides its place among tuples of
    different party ids, and the order on it. *)
Definition id_key (x : sort_item) : Z * string := (fst x, fst (snd x)).

Definition id_key_le (a b : Z * string) : Prop :=
  fst a < fst b \/ (fst a = fst b /\ String.le (snd a) (snd b)).

(** ** Vocabulary: what the library calls do to a run *)

(** What [get_soup_from_url] returns when its request does [r]. *)
Definition soup_result (r : response) : result (option Tag) :=
  match r with
  | Raises e => Raise e
  | _ => Ok (fetched r)
  end.

(** What the loop body returns for [m] when its request does [r]. *)
Definition details_result (m : municipality) (r : response)
  : result municipality :=
  match r with
  | Raises e => Raise e
  | _ => Ok (with_details m (fetched r))
  end.

(** The number of detail requests that the loop over [ms] makes: up to and
    including the first one that raises, all of them when none does. *)
Definition attempted (requests_get : nat -> string -> response) (n : nat)
    (ms : list municipality) : nat :=
  match first_raise requests_get n ms with
  | Some (k, _) => S k
  | None => length ms
  end.

(** Whether the file was written. *)
Definition written (w : write_result) : bool :=
  match w with Written => true | _ => false end.

(** The end of a run from the write attempt on, and what the run returns. *)
Definition write_events (filename : string) (dataframe : table)
    (w : write_result) : list event :=
  match w with
  | Written =>
      [ToCsv filename dataframe true; Print (MsgSaved filename);
       Print MsgProgramDone]
  | IOError =>
      [ToCsv filename dataframe false; Print MsgWriteError;
       Print MsgProgramDone]
  | WriteRaises _ => [ToCsv filename dataframe false]
  end.

Definition write_return (w : write_result) : result unit :=
  match w with
  | WriteRaises e => Raise e
  | _ => Ok tt
  end.

(** ** Vocabulary: integer literals

    The texts that the language reference allows as the argument of [int] in
    base 10: a digit part, which is decimal digits with single underscores
    between them, after an optional sign, the whole surrounded by optional
    white space. *)

(** The white space around a number. *)
Definition literal_space (c : ascii) : bool :=
  PyInt.Py_ISSPACE c || PyInt.unicode_isspace c.

(** [digit (["_"] digit)*] *)
Fixpoint digitpart (s : list ascii) : bool :=
  match s with
  | [] => false
  | c :: s' =>
      PyInt.is_digit c &&
      match s' with
      | [] => true
      | u :: s'' => if PyInt.is_underscore u then digitpart s'' else digitpart s'
      end
  end.

(** [["+" | "-"] digitpart] *)
Definition signed_digitpart (s : list ascii) : bool :=
  match s with
  | [] => false
  | c :: s' =>
      if Ascii.eqb c "+" || Ascii.eqb c "-" then digitpart s' else digitpart s
  end.

(** The text without the white space at its ends. *)
Fixpoint strip_left (s : list ascii) : list ascii :=
  match s with
  | c :: s' => if literal_space c then strip_left s' else s
  | [] => []
  end.

Definition strip (s : list ascii) : list ascii :=
  reverse (strip_left (reverse (strip_left s))).

Definition integer_literal (text : string) : bool :=
  signed_digitpart (strip (list_ascii_of_string text)).

(** The white space of a text as [PyInt.transform] hands it on. *)
Definition as_ascii_space (c : ascii) : ascii :=
  if (PyInt.code c <? 127)%N then c else " "%char.

(** A party id of 4301 digits, and a record with it. *)
Definition long_id : string :=
  string_of_list_ascii (replicate 4301 "1"%char).

Definition long_id_record : municipality :=
  sample_record "A" "Alpha" [(long_id, mkParty "PartyX" 100)].

(** * Properties *)

(** ** Text Normalizer *)

Example clean_number_doc1 : clean_number (Some "1 234") = 1234.
Proof. reflexivity. Qed.
Example clean_number_doc2 :
  clean_number (Some (String "5" (String NON_BREAKING_SPACE "678"))) = 5678.
Proof. reflexivity. Qed.
Example clean_number_doc3 : clean_number (Some "invalid") = 0.
Proof. reflexivity. Qed.
Example py_int_examples :
  py_int "007" = Some 7 /\ py_int " +1_000 " = Some 1000 /\
  py_int "-5" = Some (-5) /\ py_int "1__0" = None /\ py_int "_1" = None /\
  py_int "1_" = None /\ py_int "" = None /\ py_int "- 1" = None /\
  py_int "12a" = None /\ py_int "0x10" = None.
Proof. repeat split; reflexivity. Qed.

Section TextNormalizer.

Import PyInt.

Lemma scan_nonneg s : forall prev acc digits v digits' rest,
  scan prev acc digits s = Some (v, digits', rest) -> 0 <= acc -> 0 <= v.
Proof.
  induction s as [|c s IH]; intros prev acc digits v digits' rest; simpl.
  - destruct prev; [discriminate|]. intros [= <- _ _]. done.
  - destruct (is_underscore c).
    + destruct prev; [discriminate|]. apply IH.
    + destruct (is_digit c) eqn:Hd.
      * intros Hs Hacc. eapply IH; [exact Hs|].
        unfold is_digit in Hd. unfold digit_value.
        apply andb_true_iff in Hd as [Hd _]. apply N.leb_le in Hd. lia.
      * destruct prev; [discriminate|]. intros [= <- _ _]. done.
Qed.

Lemma skip_space_suffix s : skip_space s `suffix_of` s.
Proof.
  induction s as [|c s IH]; simpl; [done|].
  destruct (Py_ISSPACE c); [by apply suffix_cons_r | done].
Qed.

Lemma transform_minus s : "-"%char ∈ transform s -> "-"%char ∈ s.
Proof.
  induction s as [|c s IH]; simpl; [done|].
  destruct (code c <? 127)%N.
  - intros [->|?]%elem_of_cons; [left | right; auto].
  - destruct (unicode_isspace c).
    + intros [?|?]%elem_of_cons; [discriminate | right; auto].
    + intros [?|?%elem_of_nil]%elem_of_cons; [discriminate | done].
Qed.

Lemma parse_sign_positive s :
  "-"%char ∉ s -> fst (parse_sign s) = 1.
Proof.
  destruct s as [|c s]; simpl; [done|]. intros Hc.
  destruct (Ascii.eqb c "+"); [done|].
  destruct (Ascii.eqb_spec c "-") as [->|]; [|done].
  destruct Hc. left.
Qed.

Lemma from_string_nonneg s z :
  "-"%char ∉ s -> from_string s = Some z -> 0 <= z.
Proof.
  intros Hs. unfold from_string.
  assert (Hsk : "-"%char ∉ skip_space s).
  { intros Hin. apply Hs.
    destruct (skip_space_suffix s) as [k ->]. apply elem_of_app; auto. }
  pose proof (parse_sign_positive _ Hsk) as Hsign.
  destruct (parse_sign (skip_space s)) as [sign s1]. simpl in Hsign. subst sign.
  destruct s1 as [|c s1]; [discriminate|].
  destruct (is_underscore c); [discriminate|].
  destruct (scan false 0 0%nat (c :: s1)) as [[[v digits] rest]|] eqn:Hscan;
    [|discriminate].
  destruct (digits =? 0)%nat; [discriminate|].
  destruct (int_max_str_digits <? digits)%nat; [discriminate|].
  destruct (skip_space rest); [|discriminate].
  intros [= <-]. apply scan_nonneg in Hscan; lia.
Qed.

Lemma py_int_nonneg s z :
  "-"%char ∉ list_ascii_of_string s -> py_int s = Some z -> 0 <= z.
Proof.
  intros Hs. apply from_string_nonneg. intros Hin. by apply Hs, transform_minus.
Qed.

Lemma replace_with_empty_elem c old text :
  c ∈ list_ascii_of_string (replace_with_empty old text) ->
  c ∈ list_ascii_of_string text.
Proof.
  induction text as [|a text IH]; simpl; [done|].
  destruct (Ascii.eqb a old); simpl.
  - intros ?. right. auto.
  - intros [->|?]%elem_of_cons; [left | right; auto].
Qed.

Lemma replace_with_empty_filter old text :
  replace_with_empty old text =
  string_of_list_ascii (filter (fun c => c <> old) (list_ascii_of_string text)).
Proof.
  induction text as [|a text IH]; simpl; [done|].
  destruct (Ascii.eqb_spec a old) as [->|Hne].
  - rewrite filter_cons_False by tauto. done.
  - rewrite filter_cons_True by done. simpl. by rewrite IH.
Qed.

Lemma cleaned_text_without_spaces text :
  cleaned_text text = without_spaces text.
Proof.
  unfold cleaned_text, without_spaces.
  rewrite !replace_with_empty_filter, list_ascii_of_string_of_list_ascii.
  f_equal. induction (list_ascii_of_string text) as [|a l IH]; [done|].
  destruct (decide (a = NON_BREAKING_SPACE)) as [->|Hn].
  - rewrite (filter_cons_False _ _ l) by tauto.
    rewrite (filter_cons_False _ _ l) by tauto. done.
  - rewrite (filter_cons_True (fun c => c <> NON_BREAKING_SPACE)) by done.
    destruct (decide (a = REGULAR_SPACE)) as [->|Hr].
    + rewrite !filter_cons_False by tauto. done.
    + rewrite !filter_cons_True by tauto. by rewrite IH.
Qed.

End TextNormalizer.

(** C2 (as amended): [clean_number] is a total function from any text, or no
    text at all, to an integer.  It returns the value that [int] gives for the
    text without ordinary and non-breaking spaces when [int] accepts it, and
    0 when the text is absent, empty or refused.  The result is non-negative
    whenever the text holds no minus sign. *)
Theorem clean_number_total (text : option string) :
  clean_number text =
    match text with
    | Some s => default 0 (py_int (without_spaces s))
    | None => 0
    end
  /\ (~ has_minus text -> 0 <= clean_number text).
Proof.
  destruct text as [s|]; [|done].
  assert (Heq : clean_number (Some s) = default 0 (py_int (cleaned_text s))).
  { destruct s; reflexivity. }
  rewrite <- cleaned_text_without_spaces.
  split; [exact Heq|]. rewrite Heq. simpl. intros Hm.
  destruct (py_int (cleaned_text s)) as [z|] eqn:Hz; simpl; [|done].
  eapply py_int_nonneg; [|exact Hz].
  intros Hin. apply Hm. unfold cleaned_text in Hin.
  by do 2 apply replace_with_empty_elem in Hin.
Qed.

Lemma clean_number_total_witness :
  clean_number (Some "1 234") = 1234 /\ 0 <= clean_number (Some "1 234").
Proof.
  destruct (clean_number_total (Some "1 234")) as [H1 H2].
  split; [exact H1|]. apply H2. simpl. vm_compute.
  intros H. repeat (apply elem_of_cons in H as [H|H]; [discriminate H|]).
  by apply elem_of_nil in H.
Defined.

(** C2 (as stated) fails: a text with a minus sign gives a negative number. *)
Lemma clean_number_negative :
  clean_number (Some "-5") = -5 /\ ~ (0 <= clean_number (Some "-5")).
Proof. split; [reflexivity | vm_compute; congruence]. Qed.

(** ** Listing Extractor *)

Lemma truthy_spec s : truthy s = true <-> s <> "".
Proof.
  unfold truthy. destruct (String.eqb_spec s ""); simpl; split; congruence.
Qed.

Section ListingProperties.

Variable urljoin : string -> string -> option string.

Lemma scrape_row_spec base_url municipalities row :
  scrape_row urljoin base_url municipalities row =
  if decide (row_complete row) then
    if decide (row_resolves urljoin base_url row)
    then Ok (municipalities ++ [row_stub urljoin base_url row])%list
    else Raise ValueError
  else Ok municipalities.
Proof.
  unfold scrape_row.
  destruct (decide (row_complete row))
    as [(l & n & h & Hl & Hn' & Hg & Hh & Hc & Hn)|Hno].
  - assert (Hhref : row_href row = h).
    { unfold row_href. rewrite Hl. simpl. by rewrite Hg. }
    assert (Hstub : row_stub urljoin base_url row =
                    mkMunicipality (Some (get_text l true))
                      (Some (get_text n true)) (urljoin base_url h)
                      None None None None).
    { unfold row_stub, row_code, row_name. by rewrite Hhref, Hl, Hn'. }
    rewrite Hl, Hn'. simpl. apply truthy_spec in Hh, Hc, Hn.
    rewrite Hg, Hh, Hc, Hn. simpl. rewrite Hstub.
    destruct (decide (row_resolves urljoin base_url row)) as [[fl Hfl]|Hr].
    + rewrite Hhref in Hfl. by rewrite Hfl.
    + destruct (urljoin base_url h) eqn:E; [|done].
      destruct Hr. unfold row_resolves. rewrite Hhref, E. by eexists.
  - destruct (select_one row MUNICIPALITY_CODE_SELECTOR) as [l|] eqn:Hl;
      [|done].
    destruct (select_one row MUNICIPALITY_NAME_SELECTOR) as [n|] eqn:Hn;
      [|done].
    destruct (get l "href") as [h|] eqn:Hh; [|done].
    destruct (truthy h && truthy (get_text l true) && truthy (get_text n true))
      eqn:Ht; [|done].
    destruct Hno. exists l, n, h.
    apply andb_true_iff in Ht as [[Ht1 Ht2]%andb_true_iff Ht3].
    by rewrite <- !truthy_spec.
Qed.

Lemma scrape_rows_from_spec base_url rows : forall municipalities,
  scrape_rows_from urljoin base_url rows municipalities =
  if decide (Forall (row_resolves urljoin base_url) (filter row_complete rows))
  then Ok (municipalities ++
             (row_stub urljoin base_url <$> filter row_complete rows))%list
  else Raise ValueError.
Proof.
  induction rows as [|row rows IH]; intros ms.
  - simpl. by rewrite app_nil_r.
  - cbn [scrape_rows_from]. rewrite scrape_row_spec, filter_cons.
    destruct (decide (row_complete row)) as [Hc|Hc]; [|apply IH].
    destruct (decide (row_resolves urljoin base_url row)) as [Hr|Hr];
      cbn [mbind result_bind].
    + rewrite IH. destruct (decide (Forall _ (filter _ rows))) as [Hf|Hf].
      * rewrite decide_True by by constructor. by rewrite <- app_assoc.
      * rewrite decide_False; [done|]. by intros [_ ?]%Forall_cons.
    + rewrite decide_False; [done|]. by intros [? _]%Forall_cons.
Qed.

Lemma scrape_rows_spec base_url rows :
  scrape_rows urljoin base_url rows =
  if decide (Forall (row_resolves urljoin base_url) (filter row_complete rows))
  then Ok (row_stub urljoin base_url <$> filter row_complete rows)
  else Raise ValueError.
Proof. unfold scrape_rows. by rewrite scrape_rows_from_spec. Qed.

Lemma scrape_rows_ok base_url rows stubs :
  scrape_rows urljoin base_url rows = Ok stubs ->
  Forall (row_resolves urljoin base_url) (filter row_complete rows) /\
  stubs = row_stub urljoin base_url <$> filter row_complete rows.
Proof.
  rewrite scrape_rows_spec. destruct (decide _); [|done].
  by intros [= <-].
Qed.


Lemma row_stub_is_stub base_url row :
  row_resolves urljoin base_url row ->
  is_stub_of urljoin base_url row (row_stub urljoin base_url row).
Proof.
  intros [full_link Hl]. unfold is_stub_of, row_stub. simpl.
  split_and!; try done. by exists full_link.
Qed.

Lemma complete_and_others (rows : list Tag) :
  (length (filter row_complete rows) +
   length (filter (fun row => ~ row_complete row) rows))%nat = length rows.
Proof.
  induction rows as [|r rows IH]; [done|].
  rewrite !filter_cons. destruct (decide (row_complete r)).
  - rewrite decide_False by tauto. simpl. lia.
  - rewrite decide_True by done. simpl. lia.
Qed.

(** C5 (as amended): of the rows of the main table, N complete and M others,
    the listing extractor returns exactly the N stubs of the complete rows, in
    the order of the rows, each holding the code, the name and the resolved
    href of its row and nothing else, and prints their number, provided
    [urljoin] resolves the href of every complete row; the M other rows are
    skipped without error.  When [urljoin] raises on the href of a complete
    row, the extractor raises [ValueError] and returns no stub. *)
Theorem scrape_municipalities_list_stubs
    (main_page_soup : Tag) (base_url : string) (log : list event) :
  let rows := select main_page_soup MAIN_TABLE_SELECTOR in
  let complete := filter row_complete rows in
  let N := length complete in
  let M := length (filter (fun row => ~ row_complete row) rows) in
  (N + M)%nat = length rows
  /\ (Forall (row_resolves urljoin base_url) complete ->
      exists stubs,
        scrape_municipalities_list urljoin main_page_soup base_url log =
          (Ok stubs, (log ++ [Print (MsgFound N)])%list)
        /\ length stubs = N
        /\ Forall2 (is_stub_of urljoin base_url) complete stubs)
  /\ (~ Forall (row_resolves urljoin base_url) complete ->
      scrape_municipalities_list urljoin main_page_soup base_url log =
        (Raise ValueError, log)).
Proof.
  intros rows complete N M. split; [apply complete_and_others|].
  unfold scrape_municipalities_list. fold rows.
  rewrite scrape_rows_spec. fold complete. split; intros Hr.
  - rewrite decide_True by done.
    exists (row_stub urljoin base_url <$> complete).
    unfold bind, lift, print, emit, ret. rewrite length_fmap.
    split_and!; [done..|].
    apply Forall2_fmap_r, Forall_Forall2_diag.
    eapply Forall_impl; [exact Hr|]. apply row_stub_is_stub.
  - by rewrite decide_False by done.
Qed.

End ListingProperties.

(** C5 (as stated) fails: the one row of this listing is complete, with a
    code and link element, a name element and an href that is not empty, but
    [urljoin] raises [ValueError] on the href: the extractor raises it and
    returns no stub. *)
Lemma unresolvable_href_raises :
  length (filter row_complete (select bad_href_listing MAIN_TABLE_SELECTOR))
    = 1%nat /\
  length (filter (fun row => ~ row_complete row)
            (select bad_href_listing MAIN_TABLE_SELECTOR)) = 0%nat /\
  row_href <$> select bad_href_listing MAIN_TABLE_SELECTOR = [bad_href] /\
  strict_urljoin "url/" bad_href = None /\
  scrape_municipalities_list strict_urljoin bad_href_listing "url/" [] =
    (Raise ValueError, []).
Proof. repeat split; by vm_compute. Qed.

Lemma scrape_municipalities_list_stubs_witness :
  (exists stubs,
     scrape_municipalities_list sample_urljoin sample_listing "url/" [] =
       (Ok stubs, [Print (MsgFound 2)]) /\
     length stubs = 2%nat /\
     Forall2 (is_stub_of sample_urljoin "url/")
       (filter row_complete (select sample_listing MAIN_TABLE_SELECTOR))
       stubs) /\
  scrape_municipalities_list strict_urljoin bad_href_listing "url/" [] =
    (Raise ValueError, []).
Proof.
  split.
  - destruct (scrape_municipalities_list_stubs sample_urljoin sample_listing
                "url/" []) as (_ & Hok & _).
    apply Hok. apply Forall_forall. intros row _. by eexists.
  - destruct (scrape_municipalities_list_stubs strict_urljoin bad_href_listing
                "url/" []) as (_ & _ & Hraise).
    apply Hraise. intros Hall.
    apply Forall_forall with (x := listing_row
                                     (Some (element "A" (Some bad_href)))
                                     (Some (element "Alpha" None))) in Hall.
    + by destruct Hall.
    + apply list_elem_of_lookup. exists 0%nat. by vm_compute.
Defined.

(** ** Detail Extractor *)

Lemma scrape_tables_rows containers : forall acc,
  fold_left scrape_party_table containers acc =
  fold_left scrape_party_row
    (mjoin ((fun table_container =>
               match find table_container "table" with
               | Some table => drop HEADER_ROW_INDEX (find_all table "tr")
               | None => []
               end) <$> containers)) acc.
Proof.
  induction containers as [|c cs IH]; intros acc; [done|].
  simpl. rewrite fold_left_app, <- IH. f_equal. unfold scrape_party_table.
  by destruct (find c "table").
Qed.

Lemma parties_of_page_rows soup :
  parties_of_page soup = fold_left scrape_party_row (party_rows soup) ∅.
Proof. unfold parties_of_page, party_rows. simpl. apply scrape_tables_rows. Qed.

Lemma valid_party_name_spec name :
  valid_party_name name = true <-> name_ok name.
Proof.
  unfold valid_party_name, name_ok. rewrite andb_true_iff, truthy_spec.
  destruct (String.eqb_spec name INVALID_PARTY_NAME); simpl; intuition congruence.
Qed.

Lemma scrape_party_row_spec acc row :
  scrape_party_row acc row =
  if decide (qualifies row /\ name_ok (row_party_name row))
  then <[row_party_number row := mkParty (row_party_name row) (row_votes row)]> acc
  else acc.
Proof.
  unfold scrape_party_row, qualifies, row_party_name, row_party_number, row_votes.
  destruct (find_all row "td") as [|c0 [|c1 [|c2 cells]]];
    try (rewrite decide_False; [done | unfold MIN_CELLS_PER_ROW; simpl; lia]).
  change (default "" (_ <$> (c0 :: c1 :: c2 :: cells) !! PARTY_NUMBER_CELL_INDEX))
    with (get_text c0 true).
  change (default "" (_ <$> (c0 :: c1 :: c2 :: cells) !! PARTY_NAME_CELL_INDEX))
    with (get_text c1 true).
  change (_ <$> (c0 :: c1 :: c2 :: cells) !! PARTY_VOTES_CELL_INDEX)
    with (Some (get_text c2 true)).
  destruct (valid_party_name (get_text c1 true)) eqn:Hv.
  - apply valid_party_name_spec in Hv. rewrite decide_True; [done|].
    split; [unfold MIN_CELLS_PER_ROW; simpl; lia | done].
  - rewrite decide_False; [done|]. intros [_ Hn%valid_party_name_spec]. congruence.
Qed.

Lemma scrape_party_rows_snoc rows row acc :
  fold_left scrape_party_row (rows ++ [row]) acc =
  scrape_party_row (fold_left scrape_party_row rows acc) row.
Proof. by rewrite fold_left_app. Qed.

Lemma scraped_entry_origin rows id info :
  fold_left scrape_party_row rows ∅ !! id = Some info ->
  exists row, row ∈ rows /\ qualifies row /\ name_ok (row_party_name row) /\
    row_party_number row = id /\
    info = mkParty (row_party_name row) (row_votes row).
Proof.
  induction rows as [|row rows IH] using rev_ind;
    [simpl; by rewrite lookup_empty|].
  rewrite scrape_party_rows_snoc, scrape_party_row_spec.
  destruct (decide _) as [[Hq Hn]|_].
  - destruct (decide (row_party_number row = id)) as [<-|Hne].
    + rewrite lookup_insert_eq. intros [= <-]. exists row.
      rewrite elem_of_app, list_elem_of_singleton. auto.
    + rewrite lookup_insert_ne by done. intros (r & Hr & ?)%IH.
      exists r. rewrite elem_of_app. auto.
  - intros (r & Hr & ?)%IH. exists r. rewrite elem_of_app. auto.
Qed.

Lemma scraped_row_present rows i row :
  rows !! i = Some row -> qualifies row -> name_ok (row_party_name row) ->
  is_Some (fold_left scrape_party_row rows ∅ !! row_party_number row).
Proof.
  revert i. induction rows as [|r rows IH] using rev_ind; intros i; [done|].
  intros Hi Hq Hn. rewrite scrape_party_rows_snoc, scrape_party_row_spec.
  destruct (decide (i < length rows)%nat) as [Hlt|Hge].
  - rewrite lookup_app_l in Hi by done.
    specialize (IH i Hi Hq Hn). destruct (decide _); [|done].
    rewrite lookup_insert. case_decide; [by eexists | done].
  - apply lookup_lt_Some in Hi as Hlen. rewrite length_app in Hlen. simpl in Hlen.
    assert (i = length rows) as -> by lia.
    rewrite list_lookup_middle in Hi by done. injection Hi as ->.
    rewrite decide_True by done. rewrite lookup_insert_eq. by eexists.
Qed.

Lemma scraped_row_last_wins rows i row :
  rows !! i = Some row -> qualifies row -> name_ok (row_party_name row) ->
  (forall j row', (i < j)%nat -> rows !! j = Some row' -> qualifies row' ->
     name_ok (row_party_name row') ->
     row_party_number row' <> row_party_number row) ->
  fold_left scrape_party_row rows ∅ !! row_party_number row =
  Some (mkParty (row_party_name row) (row_votes row)).
Proof.
  revert i. induction rows as [|r rows IH] using rev_ind; intros i; [done|].
  intros Hi Hq Hn Hlast. rewrite scrape_party_rows_snoc, scrape_party_row_spec.
  destruct (decide (i < length rows)%nat) as [Hlt|Hge].
  - rewrite lookup_app_l in Hi by done.
    assert (IH' : fold_left scrape_party_row rows ∅ !! row_party_number row =
                  Some (mkParty (row_party_name row) (row_votes row))).
    { apply (IH i); auto. intros j row' Hj Hr. apply (Hlast j); [done|].
      apply lookup_lt_Some in Hr as ?. by rewrite lookup_app_l. }
    destruct (decide _) as [[Hq' Hn']|_]; [|done].
    rewrite lookup_insert_ne; [done|].
    apply (Hlast (length rows)); auto. by rewrite list_lookup_middle.
  - apply lookup_lt_Some in Hi as Hlen. rewrite length_app in Hlen. simpl in Hlen.
    assert (i = length rows) as -> by lia.
    rewrite list_lookup_middle in Hi by done. injection Hi as ->.
    rewrite decide_True by done. by rewrite lookup_insert_eq.
Qed.

(** C6: among the party rows of a detail page (the rows after the header of
    every results table), a row with at least three cells whose name is
    neither empty nor the sentinel is never discarded: its party identifier
    is a key of the returned mapping, and holds this row's name and votes
    when no later such row has the same identifier (the last occurrence wins).
    A row whose name is empty or the sentinel is always discarded: every entry
    of the mapping stems from a row with at least three cells and an
    acceptable name. *)
Theorem parties_kept_iff_name_ok (detail_soup : Tag) :
  let rows := party_rows detail_soup in
  let parties := parties_of_page detail_soup in
  (forall i row,
      rows !! i = Some row -> qualifies row -> name_ok (row_party_name row) ->
      is_Some (parties !! row_party_number row) /\
      ((forall j row', (i < j)%nat -> rows !! j = Some row' -> qualifies row' ->
          name_ok (row_party_name row') ->
          row_party_number row' <> row_party_number row) ->
       parties !! row_party_number row =
         Some (mkParty (row_party_name row) (row_votes row)))) /\
  (forall row, row ∈ rows -> qualifies row -> ~ name_ok (row_party_name row) ->
      forall acc, scrape_party_row acc row = acc) /\
  (forall party_number info,
      parties !! party_number = Some info ->
      exists row, row ∈ rows /\ qualifies row /\ name_ok (row_party_name row) /\
        row_party_number row = party_number /\
        info = mkParty (row_party_name row) (row_votes row)).
Proof.
  intros rows parties. subst rows parties. rewrite parties_of_page_rows.
  split; [|split].
  - intros i row Hi Hq Hn. split.
    + by eapply scraped_row_present.
    + by eapply scraped_row_last_wins.
  - intros row _ Hq Hn acc. rewrite scrape_party_row_spec.
    rewrite decide_False; [done | tauto].
  - intros id info. apply scraped_entry_origin.
Qed.

(** C7: [scrape_one_place_details] returns [None] exactly for an absent
    page.  For a page that is present it returns a record with the three
    numbers and the mapping; a number whose element is not found is 0, and
    the mapping is empty when the page has no party rows. *)
Theorem scrape_one_place_details_absent_iff (detail_soup : option Tag) :
  (scrape_one_place_details detail_soup = None <-> detail_soup = None) /\
  (forall soup, detail_soup = Some soup ->
     exists r e v ps,
       scrape_one_place_details detail_soup =
         Some (mkMunicipality None None None (Some r) (Some e) (Some v) (Some ps)) /\
       (select_one soup REGISTERED_VOTERS_SELECTOR = None -> r = 0) /\
       (select_one soup ENVELOPES_SELECTOR = None -> e = 0) /\
       (select_one soup VALID_VOTES_SELECTOR = None -> v = 0) /\
       (party_rows soup = [] -> ps = ∅)).
Proof.
  split.
  - destruct detail_soup; simpl; split; congruence.
  - intros soup ->. simpl. do 4 eexists. split; [reflexivity|].
    unfold scrape_field. repeat split.
    + by intros ->.
    + by intros ->.
    + by intros ->.
    + intros Hrows. pose proof (parties_of_page_rows soup) as Hp.
      unfold parties_of_page in Hp. simpl in Hp. rewrite Hp, Hrows. done.
Qed.

(** ** Flattener: collecting the parties *)

Lemma has_parties_record m :
  from_option id ∅ (has_parties m) = record_parties m.
Proof.
  unfold has_parties, record_parties. destruct (parties m) as [ps|]; [|done].
  simpl. by destruct (decide (ps = ∅)) as [->|].
Qed.

Lemma map_fold_collect_party all_parties (ps : gmap string party_info) :
  map_fold collect_party all_parties ps = all_parties ∪ (nazev <$> ps).
Proof.
  apply (map_fold_weak_ind (fun r m => r = all_parties ∪ (nazev <$> m))).
  - by rewrite fmap_empty, (right_id_L ∅ (∪)).
  - intros i x m r Hi ->. unfold collect_party.
    rewrite fmap_insert. apply map_eq. intros j.
    destruct (decide _) as [[v Hv]|Hnone].
    + rewrite lookup_union in Hv. rewrite lookup_fmap, Hi in Hv. simpl in Hv.
      rewrite (right_id_L None union) in Hv.
      rewrite !lookup_union. destruct (decide (i = j)) as [<-|Hne].
      * rewrite Hv, lookup_insert_eq, lookup_fmap, Hi. done.
      * by rewrite lookup_insert_ne.
    + apply eq_None_not_Some in Hnone.
      rewrite lookup_union in Hnone. apply union_None in Hnone as [Ha _].
      rewrite insert_union_r by done. done.
Qed.

Lemma collect_parties_union all_parties m :
  collect_parties all_parties m = all_parties ∪ (nazev <$> record_parties m).
Proof.
  unfold collect_parties. rewrite <- has_parties_record.
  destruct (has_parties m) as [ps|]; simpl.
  - apply map_fold_collect_party.
  - by rewrite fmap_empty, (right_id_L ∅ (∪)).
Qed.

Lemma fold_collect_parties_dom municipalities_data : forall all_parties,
  dom (fold_left collect_parties municipalities_data all_parties) =
  dom all_parties ∪ all_party_ids municipalities_data.
Proof.
  unfold all_party_ids.
  induction municipalities_data as [|m ms IH]; intros acc; simpl.
  - set_solver.
  - rewrite IH, collect_parties_union, dom_union_L, dom_fmap_L. set_solver.
Qed.

Lemma collect_all_parties_dom municipalities_data :
  dom (collect_all_parties municipalities_data) =
  all_party_ids municipalities_data.
Proof.
  unfold collect_all_parties. rewrite fold_collect_parties_dom. set_solver.
Qed.

Lemma elem_of_all_party_ids municipalities_data party_number :
  party_number ∈ all_party_ids municipalities_data <->
  exists m ps, m ∈ municipalities_data /\ parties m = Some ps /\
               party_number ∈ dom ps.
Proof.
  unfold all_party_ids. rewrite elem_of_union_list. split.
  - intros (X & [m [-> Hm]]%list_elem_of_fmap & Hin).
    unfold record_parties in Hin. destruct (parties m) as [ps|] eqn:Hps.
    + by exists m, ps.
    + simpl in Hin. set_solver.
  - intros (m & ps & Hm & Hps & Hin). exists (dom (record_parties m)). split.
    + apply list_elem_of_fmap. by exists m.
    + unfold record_parties. by rewrite Hps.
Qed.

Lemma party_votes_votes_or_zero m party_number :
  party_votes m party_number = votes_or_zero m party_number.
Proof.
  unfold party_votes, votes_or_zero. rewrite <- has_parties_record.
  destruct (has_parties m) as [ps|]; simpl.
  - by destruct (ps !! party_number).
  - by rewrite lookup_empty.
Qed.

(** ** Flattener: the sort step *)

Lemma temp_list_ok items l :
  temp_list items = Ok l ->
  snd <$> l = items /\ Forall (fun x => py_int (fst (snd x)) = Some (fst x)) l.
Proof.
  revert l. induction items as [|[k name] items IH]; intros l; simpl.
  - intros [= <-]. by split.
  - destruct (py_int k) as [n|] eqn:Hn; [|discriminate].
    destruct (temp_list items) as [l'|e]; simpl; [|discriminate].
    intros [= <-]. destruct (IH l' eq_refl) as [<- Hall]. split; [done|].
    by constructor.
Qed.

Lemma temp_list_valid items :
  Forall (fun kv => is_Some (py_int (fst kv))) items ->
  exists l, temp_list items = Ok l.
Proof.
  induction 1 as [|[k name] items [n Hn] _ [l IH]]; simpl; [by eexists|].
  simpl in Hn. rewrite Hn, IH. by eexists.
Qed.

Lemma temp_list_invalid items :
  Exists (fun kv => py_int (fst kv) = None) items ->
  temp_list items = Raise ValueError.
Proof.
  induction items as [|[k name] items IH]; intros Hex; [by inversion Hex|].
  simpl. destruct (py_int k) as [n|] eqn:Hn; [|done].
  inversion Hex as [? ? Hk|? ? Hrest]; subst; simpl in *; [congruence|].
  by rewrite IH.
Qed.

Lemma insert_sorted_perm x l : insert_sorted x l ≡ₚ x :: l.
Proof.
  induction l as [|y l IH]; simpl; [done|].
  destruct (tuple_lt x y); [done|]. by rewrite IH, Permutation_swap.
Qed.

Lemma list_sort_perm l : list_sort l ≡ₚ l.
Proof.
  unfold list_sort. rewrite <- (app_nil_r l) at 2.
  generalize (@nil sort_item) as acc.
  induction l as [|x l IH]; intros acc; simpl; [done|].
  rewrite IH, insert_sorted_perm. by rewrite Permutation_middle.
Qed.

Lemma string_ltb_asym s1 s2 : String.ltb s1 s2 = true -> String.ltb s2 s1 = false.
Proof.
  unfold String.ltb. rewrite (String.compare_antisym s2 s1).
  by destruct (String.compare s1 s2).
Qed.

Lemma string_ltb_total s1 s2 :
  s1 <> s2 -> String.ltb s2 s1 = false -> String.ltb s1 s2 = true.
Proof.
  unfold String.ltb. rewrite (String.compare_antisym s1 s2).
  destruct (String.compare s2 s1) eqn:Hc; simpl; try done.
  apply String.compare_eq_iff in Hc. congruence.
Qed.

Lemma tuple_lt_asym a b : tuple_lt a b = true -> tuple_lt b a = false.
Proof.
  destruct a as [n1 [id1 name1]], b as [n2 [id2 name2]]. simpl.
  rewrite (Z.eqb_sym n2 n1), (String.eqb_sym id2 id1).
  destruct (Z.eqb_spec n1 n2) as [->|Hn].
  - destruct (String.eqb id1 id2); apply string_ltb_asym.
  - intros ?%Z.ltb_lt. apply Z.ltb_ge. lia.
Qed.

Lemma insert_sorted_sorted x l :
  Sorted not_above l -> Sorted not_above (insert_sorted x l).
Proof.
  induction 1 as [|y l Hl IH Hhd]; simpl; [by repeat constructor|].
  destruct (tuple_lt x y) eqn:Hxy.
  - constructor; [by constructor|]. constructor. by apply tuple_lt_asym.
  - constructor; [done|]. destruct l as [|z l]; simpl.
    + by constructor.
    + destruct (tuple_lt x z); constructor; [done|]. by inversion Hhd.
Qed.

Lemma list_sort_sorted l : Sorted not_above (list_sort l).
Proof.
  unfold list_sort. assert (Hnil : Sorted not_above []) by constructor.
  revert Hnil. generalize (@nil sort_item) as acc.
  induction l as [|x l IH]; intros acc Hacc; simpl; [done|].
  apply IH. by apply insert_sorted_sorted.
Qed.

Lemma Sorted_neighbours {A} (R : A -> A -> Prop) l i a b :
  Sorted R l -> l !! i = Some a -> l !! S i = Some b -> R a b.
Proof.
  intros Hs. revert i. induction Hs as [|x l Hl IH Hhd]; intros i; [done|].
  destruct i as [|i]; simpl.
  - intros [= ->] Hb. destruct l; [done|]. simpl in Hb. injection Hb as ->.
    by inversion Hhd.
  - apply IH.
Qed.

Lemma sort_parties_ok all_parties sorted_parties :
  sort_parties all_parties = Ok sorted_parties ->
  exists keyed,
    sorted_parties = snd <$> keyed /\ Sorted not_above keyed /\
    Forall (fun x => py_int (fst (snd x)) = Some (fst x)) keyed /\
    sorted_parties ≡ₚ map_to_list all_parties.
Proof.
  unfold sort_parties.
  destruct (temp_list (map_to_list all_parties)) as [l|e] eqn:Hl; simpl;
    [|discriminate].
  intros [= <-]. apply temp_list_ok in Hl as [Hsnd Hall].
  exists (list_sort l). split; [done|]. split; [apply list_sort_sorted|].
  split.
  - by rewrite list_sort_perm.
  - by rewrite list_sort_perm, Hsnd.
Qed.

Lemma sort_parties_lookup all_parties sorted_parties party_number name :
  sort_parties all_parties = Ok sorted_parties ->
  (party_number, name) ∈ sorted_parties <-> all_parties !! party_number = Some name.
Proof.
  intros (keyed & _ & _ & _ & Hperm)%sort_parties_ok.
  by rewrite Hperm, elem_of_map_to_list.
Qed.

Lemma sort_parties_NoDup all_parties sorted_parties :
  sort_parties all_parties = Ok sorted_parties ->
  NoDup (fst <$> sorted_parties).
Proof.
  intros (keyed & _ & _ & _ & Hperm)%sort_parties_ok.
  rewrite Hperm. apply NoDup_fst_map_to_list.
Qed.

Lemma sort_parties_dom all_parties sorted_parties :
  sort_parties all_parties = Ok sorted_parties ->
  forall party_number,
    party_number ∈ fst <$> sorted_parties <-> party_number ∈ dom all_parties.
Proof.
  intros Hs k. rewrite elem_of_dom, list_elem_of_fmap. split.
  - intros ([k' name] & -> & Hin). simpl.
    apply (sort_parties_lookup _ _ _ _ Hs) in Hin. by eexists.
  - intros [name Hname]. exists (k, name). split; [done|].
    by apply (sort_parties_lookup _ _ _ _ Hs).
Qed.

Lemma sort_parties_valid all_parties :
  (forall party_number, party_number ∈ dom all_parties ->
     is_Some (py_int party_number)) ->
  exists sorted_parties, sort_parties all_parties = Ok sorted_parties.
Proof.
  intros Hvalid. unfold sort_parties.
  destruct (temp_list_valid (map_to_list all_parties)) as [l ->].
  - apply Forall_forall. intros [k name] Hin%elem_of_map_to_list. simpl.
    apply Hvalid, elem_of_dom. by eexists.
  - simpl. by eexists.
Qed.

Lemma sort_parties_invalid all_parties party_number :
  party_number ∈ dom all_parties -> py_int party_number = None ->
  sort_parties all_parties = Raise ValueError.
Proof.
  intros [name Hname]%elem_of_dom Hbad. unfold sort_parties.
  rewrite temp_list_invalid; [done|]. apply Exists_exists.
  exists (party_number, name). split; [|done].
  by apply elem_of_map_to_list.
Qed.

Lemma sorted_neighbours_increase (municipalities_data : list municipality)
    (sorted_parties : list (string * string)) :
  sort_parties (collect_all_parties municipalities_data) = Ok sorted_parties ->
  forall i id1 name1 id2 name2,
    sorted_parties !! i = Some (id1, name1) ->
    sorted_parties !! S i = Some (id2, name2) ->
    exists n1 n2,
      py_int id1 = Some n1 /\ py_int id2 = Some n2 /\
      n1 <= n2 /\ id1 <> id2 /\
      (n1 = n2 -> String.ltb id1 id2 = true) /\
      ((forall a b, a ∈ all_party_ids municipalities_data ->
                    b ∈ all_party_ids municipalities_data ->
                    py_int a = py_int b -> a = b) -> n1 < n2).
Proof.
  intros Hsort i id1 name1 id2 name2 H1 H2.
  pose proof (sort_parties_NoDup _ _ Hsort) as Hnd.
  pose proof (sort_parties_dom _ _ Hsort) as Hdom.
  destruct (sort_parties_ok _ _ Hsort) as (keyed & -> & Hsorted & Hall & _).
  rewrite list_lookup_fmap in H1, H2.
  destruct (keyed !! i) as [[n1 [a1 b1]]|] eqn:Hk1; [|done].
  destruct (keyed !! S i) as [[n2 [a2 b2]]|] eqn:Hk2; [|done].
  simpl in H1, H2. injection H1 as -> ->. injection H2 as -> ->.
  pose proof (Sorted_neighbours _ _ _ _ _ Hsorted Hk1 Hk2) as Hna.
  rewrite Forall_forall in Hall.
  pose proof (Hall _ (list_elem_of_lookup_2 _ _ _ Hk1)) as Hp1.
  pose proof (Hall _ (list_elem_of_lookup_2 _ _ _ Hk2)) as Hp2.
  simpl in Hp1, Hp2.
  assert (Hne : id1 <> id2).
  { intros ->. rewrite NoDup_alt in Hnd.
    assert (i = S i); [|lia].
    apply (Hnd i (S i) id2); rewrite !list_lookup_fmap.
    - by rewrite Hk1.
    - by rewrite Hk2. }
  unfold not_above in Hna. simpl in Hna.
  assert (Hle : n1 <= n2 /\ (n1 = n2 -> String.ltb id1 id2 = true)).
  { destruct (Z.eqb_spec n2 n1) as [->|Hn].
    - split; [lia|]. intros _.
      destruct (String.eqb_spec id2 id1) as [->|_]; [done|].
      by apply string_ltb_total.
    - apply Z.ltb_ge in Hna. split; [lia|]. intros ->. done. }
  destruct Hle as [Hle Htie].
  exists n1, n2. repeat split; auto.
  intros Hinj. destruct (decide (n1 = n2)) as [->|]; [|lia].
  destruct Hne. rewrite <- collect_all_parties_dom in Hinj.
  apply Hinj; [| |congruence]; apply Hdom, list_elem_of_fmap.
  - exists (id1, name1). split; [done|].
    apply list_elem_of_fmap. exists (n2, (id1, name1)).
    split; [done|]. by eapply list_elem_of_lookup_2.
  - exists (id2, name2). split; [done|].
    apply list_elem_of_fmap. exists (n2, (id2, name2)).
    split; [done|]. by eapply list_elem_of_lookup_2.
Qed.

(** ** Flattener: rows and frame *)

Lemma make_csv_row_snoc sorted_parties party_number party_name m :
  make_csv_row (sorted_parties ++ [(party_number, party_name)]) m =
  <[party_name := CInt (party_votes m party_number)]>
    (make_csv_row sorted_parties m).
Proof. unfold make_csv_row. by rewrite fold_left_app. Qed.

Lemma make_csv_row_nil m : make_csv_row [] m = base_row m.
Proof. done. Qed.

Lemma base_row_lookup m c :
  base_row m !! c =
  if decide (c ∈ base_columns)
  then Some (default (CStr DEFAULT_VALUE) (municipality_get m c)) else None.
Proof.
  unfold base_row, base_columns. simpl.
  repeat (rewrite lookup_insert; case_decide;
          [subst c; by rewrite decide_True by set_solver|]).
  rewrite lookup_empty. rewrite decide_False; [done|]. set_solver.
Qed.

Lemma make_csv_row_other sorted_parties m c :
  c ∉ snd <$> sorted_parties ->
  make_csv_row sorted_parties m !! c = base_row m !! c.
Proof.
  induction sorted_parties as [|[k name] l IH] using rev_ind; [done|].
  rewrite fmap_app, not_elem_of_app. simpl. intros [Hl Hc].
  rewrite make_csv_row_snoc, lookup_insert_ne; [auto|]. set_solver.
Qed.

Lemma make_csv_row_party sorted_parties m party_number party_name :
  NoDup (snd <$> sorted_parties) ->
  (party_number, party_name) ∈ sorted_parties ->
  make_csv_row sorted_parties m !! party_name =
  Some (CInt (party_votes m party_number)).
Proof.
  induction sorted_parties as [|[k name] l IH] using rev_ind; [by intros _ ?%elem_of_nil|].
  rewrite fmap_app. simpl. intros [Hnd [Hname _]]%NoDup_app.
  rewrite make_csv_row_snoc, elem_of_app, list_elem_of_singleton.
  intros [Hin|[= -> ->]].
  - rewrite lookup_insert_ne; [auto|]. intros ->.
    apply (Hname party_name); [|set_solver].
    apply list_elem_of_fmap. by exists (party_number, party_name).
  - by rewrite lookup_insert_eq.
Qed.

Lemma make_csv_row_some_party sorted_parties m party_name :
  party_name ∈ snd <$> sorted_parties ->
  exists party_number,
    (party_number, party_name) ∈ sorted_parties /\
    make_csv_row sorted_parties m !! party_name =
    Some (CInt (party_votes m party_number)).
Proof.
  induction sorted_parties as [|[k name] l IH] using rev_ind; [by intros ?%elem_of_nil|].
  intros Hin. rewrite make_csv_row_snoc.
  destruct (decide (name = party_name)) as [->|Hne].
  - exists k. rewrite lookup_insert_eq. split; [|done]. set_solver.
  - rewrite lookup_insert_ne by done.
    destruct IH as (k' & Hk' & Hl); [set_solver|].
    exists k'. split; [|done]. set_solver.
Qed.

Lemma make_csv_row_dom sorted_parties m :
  dom (make_csv_row sorted_parties m) =
  list_to_set base_columns ∪ list_to_set (snd <$> sorted_parties).
Proof.
  induction sorted_parties as [|[k name] l IH] using rev_ind.
  - rewrite make_csv_row_nil. apply set_eq. intros c.
    rewrite elem_of_dom, base_row_lookup.
    case_decide; [|rewrite is_Some_alt]; set_solver.
  - rewrite make_csv_row_snoc, dom_insert_L, IH, fmap_app, list_to_set_app_L.
    simpl. set_solver.
Qed.

Lemma frame_getitem_rows sorted_parties municipalities_data labels :
  municipalities_data <> [] ->
  labels ⊆ (base_columns ++ (snd <$> sorted_parties))%list ->
  frame_getitem (make_csv_row sorted_parties <$> municipalities_data) labels =
  Ok (mkTable labels (row_cells sorted_parties labels <$> municipalities_data)).
Proof.
  intros Hne Hlabels. unfold frame_getitem.
  rewrite decide_True; [by rewrite <- list_fmap_compose|].
  apply Forall_forall. intros c Hc%Hlabels.
  destruct municipalities_data as [|m ms]; [done|].
  unfold frame_columns. simpl. apply elem_of_union. left.
  rewrite make_csv_row_dom. set_solver.
Qed.

Lemma frame_getitem_empty labels :
  labels <> [] -> frame_getitem [] labels = Raise KeyError.
Proof.
  intros Hne. unfold frame_getitem. rewrite decide_False; [done|].
  destruct labels as [|c labels]; [done|]. intros Hall.
  apply Forall_cons in Hall as [Hc _]. unfold frame_columns in Hc. set_solver.
Qed.

Lemma export_table_rows municipalities_data sorted_parties :
  municipalities_data <> [] ->
  sort_parties (collect_all_parties municipalities_data) = Ok sorted_parties ->
  export_table municipalities_data =
  let labels := (base_columns ++ (snd <$> sorted_parties))%list in
  Ok (mkTable labels (row_cells sorted_parties labels <$> municipalities_data)).
Proof.
  intros Hne Hsort. unfold export_table. rewrite Hsort. simpl.
  by apply frame_getitem_rows.
Qed.

Lemma export_table_empty : export_table [] = Raise KeyError.
Proof. reflexivity. Qed.

Lemma export_table_invalid municipalities_data party_number :
  party_number ∈ all_party_ids municipalities_data ->
  py_int party_number = None ->
  export_table municipalities_data = Raise ValueError.
Proof.
  intros Hin Hbad. unfold export_table.
  rewrite (sort_parties_invalid _ party_number); [done| |done].
  by rewrite collect_all_parties_dom.
Qed.

(** C4 (as amended): for every non-empty collection of records whose party
    ids are all accepted by [int], the party columns follow the base columns
    in non-decreasing order of the integer values of their party ids.  Two
    neighbouring columns have different party ids; when these denote the
    same integer the columns are ordered by the text of the ids, so that the
    order is strictly increasing whenever different party ids denote
    different integers. *)
Theorem party_columns_sorted (municipalities_data : list municipality) :
  municipalities_data <> [] ->
  (forall party_number, party_number ∈ all_party_ids municipalities_data ->
     is_Some (py_int party_number)) ->
  exists sorted_parties dataframe,
    sort_parties (collect_all_parties municipalities_data) = Ok sorted_parties /\
    export_table municipalities_data = Ok dataframe /\
    header dataframe = (base_columns ++ (snd <$> sorted_parties))%list /\
    forall i id1 name1 id2 name2,
      sorted_parties !! i = Some (id1, name1) ->
      sorted_parties !! S i = Some (id2, name2) ->
      exists n1 n2,
        py_int id1 = Some n1 /\ py_int id2 = Some n2 /\
        n1 <= n2 /\ id1 <> id2 /\
        (n1 = n2 -> String.ltb id1 id2 = true) /\
        ((forall a b, a ∈ all_party_ids municipalities_data ->
                      b ∈ all_party_ids municipalities_data ->
                      py_int a = py_int b -> a = b) -> n1 < n2).
Proof.
  intros Hne Hvalid.
  destruct (sort_parties_valid (collect_all_parties municipalities_data))
    as [sorted_parties Hsort].
  { intros k. rewrite collect_all_parties_dom. apply Hvalid. }
  exists sorted_parties. eexists. split; [done|].
  rewrite (export_table_rows _ _ Hne Hsort). cbv zeta.
  split; [reflexivity|]. split; [reflexivity|].
  by apply sorted_neighbours_increase.
Qed.

Example export_scenario :
  export_table [record_A; record_B] =
  Ok (mkTable
        ["code"; "location"; "registered"; "envelopes"; "valid"; "PartyX"; "PartyY"]
        [[CStr "A"; CStr "Alpha"; CInt 10; CInt 9; CInt 8; CInt 100; CInt 50];
         [CStr "B"; CStr "Bravo"; CInt 10; CInt 9; CInt 8; CInt 0; CInt 30]]).
Proof. vm_compute. reflexivity. Qed.

Lemma sorted_names_NoDup all_parties sorted_parties :
  sort_parties all_parties = Ok sorted_parties ->
  (forall id1 id2 name,
     all_parties !! id1 = Some name -> all_parties !! id2 = Some name ->
     id1 = id2) ->
  NoDup (snd <$> sorted_parties).
Proof.
  intros Hsort Hinj. apply NoDup_fmap_2_strong.
  - intros [k1 n1] [k2 n2] H1 H2. simpl. intros <-.
    apply (sort_parties_lookup _ _ _ _ Hsort) in H1, H2.
    by rewrite (Hinj k1 k2 n1).
  - eapply NoDup_fmap_1, sort_parties_NoDup, Hsort.
Qed.

Lemma row_cells_parties sorted_parties m :
  NoDup (snd <$> sorted_parties) ->
  (fun c => default NaN (make_csv_row sorted_parties m !! c)) <$>
    (snd <$> sorted_parties) =
  (fun p => CInt (votes_or_zero m (fst p))) <$> sorted_parties.
Proof.
  intros Hnd. rewrite <- list_fmap_compose. apply list_fmap_ext.
  intros i [k name] Hi. simpl.
  rewrite (make_csv_row_party _ _ k name); [|done|by eapply list_elem_of_lookup_2].
  simpl. by rewrite party_votes_votes_or_zero.
Qed.

(** C1 (as amended): for every list of records that is not empty, whose party
    ids are all accepted by [int], and in which different party ids have
    different party names, [export_to_csv] builds a table whose party
    columns, after the five base columns, are one per party id of the union
    of the records' party ids, no party id twice; every record has a row,
    and in it a cell for every party column that holds the record's vote
    count for the party if present and 0 otherwise. *)
Theorem export_schema_complete (municipalities_data : list municipality) :
  municipalities_data <> [] ->
  (forall party_number, party_number ∈ all_party_ids municipalities_data ->
     is_Some (py_int party_number)) ->
  (forall id1 id2 name,
     collect_all_parties municipalities_data !! id1 = Some name ->
     collect_all_parties municipalities_data !! id2 = Some name -> id1 = id2) ->
  exists sorted_parties dataframe,
    sort_parties (collect_all_parties municipalities_data) = Ok sorted_parties /\
    export_table municipalities_data = Ok dataframe /\
    NoDup (fst <$> sorted_parties) /\
    (forall party_number,
       party_number ∈ fst <$> sorted_parties <->
       party_number ∈ all_party_ids municipalities_data) /\
    header dataframe = (base_columns ++ (snd <$> sorted_parties))%list /\
    length (body dataframe) = length municipalities_data /\
    (forall i m, municipalities_data !! i = Some m ->
       exists base_cells,
         length base_cells = length base_columns /\
         body dataframe !! i =
           Some (base_cells ++
                 ((fun p => CInt (votes_or_zero m (fst p))) <$> sorted_parties))%list).
Proof.
  intros Hne Hvalid Hnames.
  destruct (sort_parties_valid (collect_all_parties municipalities_data))
    as [sorted_parties Hsort].
  { intros k. rewrite collect_all_parties_dom. apply Hvalid. }
  exists sorted_parties. eexists. split; [done|].
  rewrite (export_table_rows _ _ Hne Hsort). cbv zeta.
  split; [reflexivity|]. cbn [header body].
  split; [by eapply sort_parties_NoDup|]. split.
  { intros k. rewrite <- collect_all_parties_dom. by apply sort_parties_dom. }
  split; [done|]. split; [by rewrite length_fmap|].
  intros i m Hi. rewrite list_lookup_fmap, Hi. cbn [fmap option_fmap option_map].
  exists (row_cells sorted_parties base_columns m). split; [done|].
  unfold row_cells. rewrite fmap_app. do 2 f_equal.
  apply row_cells_parties. by eapply sorted_names_NoDup.
Qed.

Lemma export_schema_complete_witness :
  exists sorted_parties dataframe,
    sort_parties (collect_all_parties [record_A; record_B]) = Ok sorted_parties /\
    export_table [record_A; record_B] = Ok dataframe /\
    fst <$> sorted_parties = ["1"; "2"] /\
    body dataframe !! 1%nat =
      Some [CStr "B"; CStr "Bravo"; CInt 10; CInt 9; CInt 8; CInt 0; CInt 30].
Proof.
  destruct (export_schema_complete [record_A; record_B])
    as (sorted_parties & dataframe & Hs & Ht & _).
  - discriminate.
  - intros k Hk.
    assert (Hall : all_party_ids [record_A; record_B] = {["1"]} ∪ {["2"]})
      by (by vm_compute).
    rewrite Hall in Hk.
    apply elem_of_union in Hk as [->%elem_of_singleton| ->%elem_of_singleton];
      by eexists.
  - intros id1 id2 name H1 H2.
    assert (Hall : collect_all_parties [record_A; record_B] =
                   {["1" := "PartyX"; "2" := "PartyY"]}) by (by vm_compute).
    rewrite Hall in H1, H2.
    apply lookup_insert_Some in H1 as [[<- <-]|[_ H1]];
      apply lookup_insert_Some in H2 as [[<- ?]|[? H2]]; try done;
      repeat match goal with
        | H : {[ _ := _ ]} !! _ = Some _ |- _ =>
            apply lookup_singleton_Some in H as [<- ?]
        end; congruence.
  - exists sorted_parties, dataframe. split; [done|]. split; [done|].
    vm_compute in Hs. vm_compute in Ht.
    injection Hs as <-. injection Ht as <-. by vm_compute.
Defined.

(** C1 (as stated) fails: with two parties of one name, both party columns of
    the row hold the votes of the second party, while the record has 100
    votes for party 1.  Besides, a party id that is no integer and the empty
    list of records give no table at all. *)
Lemma export_same_name_columns :
  (export_table [same_name_record] =
     Ok (mkTable
           ["code"; "location"; "registered"; "envelopes"; "valid"; "X"; "X"]
           [[CStr "A"; CStr "Alpha"; CInt 10; CInt 9; CInt 8; CInt 50; CInt 50]]) /\
   sort_parties (collect_all_parties [same_name_record]) =
     Ok [("1", "X"); ("2", "X")] /\
   votes_or_zero same_name_record "1" = 100) /\
  export_table [bad_id_record] = Raise ValueError /\
  export_table [] = Raise KeyError.
Proof. split; [by vm_compute|]. split; by vm_compute. Qed.

(** ** Integer literals are what [int] accepts *)

Section IntegerLiterals.

Import PyInt.

Lemma digit_not_underscore c : is_digit c = true -> is_underscore c = false.
Proof.
  unfold is_digit, is_underscore.
  intros [_ H]%andb_true_iff. apply N.leb_le in H. apply N.eqb_neq. lia.
Qed.

Lemma digit_not_space c : is_digit c = true -> Py_ISSPACE c = false.
Proof.
  unfold is_digit, Py_ISSPACE.
  intros [H _]%andb_true_iff. apply N.leb_le in H.
  apply orb_false_iff. split; [apply andb_false_iff; right|];
    [apply N.leb_gt | apply N.eqb_neq]; lia.
Qed.

Lemma digit_is_ascii c : is_digit c = true -> (code c <? 127)%N = true.
Proof.
  unfold is_digit. intros [_ H]%andb_true_iff. apply N.leb_le in H.
  apply N.ltb_lt. lia.
Qed.

Lemma space_not_digit c :
  Py_ISSPACE c = true -> is_digit c = false /\ is_underscore c = false.
Proof.
  unfold is_digit, is_underscore, Py_ISSPACE.
  intros [[H1 H2]%andb_true_iff|H]%orb_true_iff.
  - apply N.leb_le in H1, H2. split; [apply andb_false_iff; left|];
      [apply N.leb_gt | apply N.eqb_neq]; lia.
  - apply N.eqb_eq in H. split; [apply andb_false_iff; left|];
      [apply N.leb_gt | apply N.eqb_neq]; lia.
Qed.

Lemma digitpart_head s :
  digitpart s = true -> exists c s', s = c :: s' /\ is_digit c = true.
Proof.
  destruct s as [|c s']; [done|]. simpl. intros [H _]%andb_true_iff.
  by exists c, s'.
Qed.

Lemma scan_after_underscore c s acc n :
  is_digit c = true ->
  scan true acc n (c :: s) = scan false acc n (c :: s).
Proof.
  intros Hd. simpl. by rewrite (digit_not_underscore c Hd), Hd.
Qed.

Lemma scan_stops_at_space acc n ws :
  Forall (fun c => Py_ISSPACE c = true) ws ->
  scan false acc n ws = Some (acc, n, ws).
Proof.
  destruct 1 as [|c ws Hc _]; [done|]. simpl.
  by destruct (space_not_digit c Hc) as [-> ->].
Qed.

Lemma scan_digitpart ws :
  Forall (fun c => Py_ISSPACE c = true) ws ->
  forall k s, (length s <= k)%nat -> digitpart s = true ->
  forall acc n,
    exists v,
      scan false acc n (s ++ ws) =
        Some (v, (n + length (filter (fun c => is_digit c = true) s))%nat, ws).
Proof.
  intros Hws. induction k as [|k IH]; intros s Hlen Hs acc n.
  { destruct s; [done | simpl in Hlen; lia]. }
  destruct s as [|c s']; [done|]. cbn [digitpart] in Hs.
  apply andb_true_iff in Hs as [Hc Hs].
  rewrite filter_cons, decide_True by done.
  cbn [app scan length]. rewrite (digit_not_underscore c Hc), Hc.
  destruct s' as [|u s''].
  - rewrite filter_nil. cbn [app length]. rewrite scan_stops_at_space by done.
    eexists. do 3 f_equal. lia.
  - simpl in Hlen. destruct (is_underscore u) eqn:Hu.
    + destruct (digitpart_head _ Hs) as (c2 & s3 & -> & Hc2).
      rewrite filter_cons, decide_False.
      2: { intros Hd. apply digit_not_underscore in Hd. congruence. }
      change (((u :: c2 :: s3) ++ ws)%list) with (u :: (c2 :: s3) ++ ws)%list.
      cbn [scan]. rewrite Hu.
      change (((c2 :: s3) ++ ws)%list) with (c2 :: s3 ++ ws)%list.
      rewrite scan_after_underscore by done.
      destruct (IH (c2 :: s3) ltac:(simpl in *; lia) Hs
                  (10 * acc + digit_value c) (S n)) as [v Hv].
      exists v. change (c2 :: s3 ++ ws)%list with ((c2 :: s3) ++ ws)%list.
      rewrite Hv. do 3 f_equal. cbn [length]. lia.
    + destruct (IH (u :: s'') ltac:(simpl in *; lia) Hs
                  (10 * acc + digit_value c) (S n)) as [v Hv].
      exists v. rewrite Hv. do 3 f_equal. cbn [length]. lia.
Qed.

Lemma strip_left_split s :
  exists ws, s = (ws ++ strip_left s)%list /\
             Forall (fun c => literal_space c = true) ws.
Proof.
  induction s as [|c s (ws & Hs & Hws)]; [by exists []|]. simpl.
  destruct (literal_space c) eqn:Hc.
  - exists (c :: ws). split; [by rewrite <- app_comm_cons, <- Hs | by constructor].
  - by exists [].
Qed.

Lemma strip_split s :
  exists ws1 ws2,
    s = (ws1 ++ strip s ++ ws2)%list /\
    Forall (fun c => literal_space c = true) ws1 /\
    Forall (fun c => literal_space c = true) ws2.
Proof.
  destruct (strip_left_split s) as (ws1 & Hs & Hws1).
  destruct (strip_left_split (reverse (strip_left s))) as (ws2 & Hr & Hws2).
  exists ws1, (reverse ws2). split; [|split; [done|]].
  - unfold strip. rewrite <- reverse_app, <- Hr, reverse_involutive. exact Hs.
  - by apply Forall_reverse.
Qed.

Lemma as_ascii_space_space c :
  literal_space c = true -> Py_ISSPACE (as_ascii_space c) = true.
Proof.
  unfold literal_space, as_ascii_space. intros Hc.
  destruct (code c <? 127)%N eqn:Hlt; [|done].
  apply orb_true_iff in Hc as [Hc|Hc]; [done|].
  unfold unicode_isspace in Hc. apply N.ltb_lt in Hlt.
  apply orb_true_iff in Hc as [Hc|Hc]; apply N.eqb_eq in Hc; lia.
Qed.

Lemma transform_space_app ws s :
  Forall (fun c => literal_space c = true) ws ->
  transform (ws ++ s) = ((as_ascii_space <$> ws) ++ transform s)%list.
Proof.
  induction 1 as [|c ws Hc _ IH]; [done|]. cbn [app transform fmap list_fmap].
  unfold as_ascii_space. destruct (code c <? 127)%N eqn:Hlt.
  - by rewrite IH.
  - unfold literal_space in Hc.
    assert (Hu : unicode_isspace c = true).
    { apply orb_true_iff in Hc as [Hc|Hc]; [|done]. unfold Py_ISSPACE in Hc.
      apply N.ltb_ge in Hlt.
      apply orb_true_iff in Hc as [[_ Hc]%andb_true_iff|Hc];
        [apply N.leb_le in Hc | apply N.eqb_eq in Hc]; lia. }
    by rewrite Hu, IH.
Qed.

Lemma transform_space ws :
  Forall (fun c => literal_space c = true) ws ->
  transform ws = as_ascii_space <$> ws.
Proof.
  intros Hws. rewrite <- (app_nil_r ws) at 1.
  rewrite transform_space_app by done. simpl. by rewrite app_nil_r.
Qed.

(** The characters of a digit part are ASCII. *)
Lemma digitpart_plain k : forall s, (length s <= k)%nat ->
  digitpart s = true -> forall t, transform (s ++ t) = (s ++ transform t)%list.
Proof.
  induction k as [|k IH]; intros s Hlen Hs t.
  { destruct s; [done | simpl in Hlen; lia]. }
  destruct s as [|c s']; [done|]. cbn [digitpart] in Hs.
  apply andb_true_iff in Hs as [Hc Hs]. cbn [app transform].
  rewrite (digit_is_ascii c Hc). simpl in Hlen.
  destruct s' as [|u s'']; [done|]. destruct (is_underscore u) eqn:Hu.
  - cbn [app transform].
    assert (Hlt : (code u <? 127)%N = true).
    { unfold is_underscore in Hu. apply N.eqb_eq in Hu. apply N.ltb_lt. lia. }
    rewrite Hlt, (IH s'') by (done || simpl in *; lia). done.
  - by rewrite (IH (u :: s'')) by (done || simpl in *; lia).
Qed.

Lemma skip_space_spaces ws s :
  Forall (fun c => Py_ISSPACE c = true) ws ->
  skip_space (ws ++ s) = skip_space s.
Proof. induction 1 as [|c ws Hc _ IH]; [done|]. simpl. by rewrite Hc. Qed.

Lemma filter_digit_spaces ws :
  Forall (fun c => literal_space c = true) ws ->
  filter (fun c => is_digit c = true) ws = [].
Proof.
  induction 1 as [|c ws Hc _ IH]; [done|].
  rewrite filter_cons, decide_False; [done|]. intros Hd.
  unfold literal_space in Hc. rewrite (digit_not_space c Hd) in Hc.
  unfold unicode_isspace, is_digit in *.
  apply andb_true_iff in Hd as [_ Hd]. apply N.leb_le in Hd.
  apply orb_true_iff in Hc as [Hc|Hc]; [done|].
  apply orb_true_iff in Hc as [Hc|Hc]; apply N.eqb_eq in Hc; lia.
Qed.

Lemma from_string_digitpart sign body ws :
  digitpart body = true ->
  (length (filter (fun c => is_digit c = true) body) <= int_max_str_digits)%nat ->
  Forall (fun c => Py_ISSPACE c = true) ws ->
  is_Some (from_string (body ++ ws)) /\
  (sign = "+"%char \/ sign = "-"%char ->
   is_Some (from_string (sign :: body ++ ws))).
Proof.
  intros Hbody Hmax Hws.
  destruct (digitpart_head _ Hbody) as (c & s' & -> & Hc).
  destruct (scan_digitpart ws Hws _ (c :: s') (le_n _) Hbody 0 0%nat)
    as [v Hv].
  assert (Hcount : exists d,
            length (filter (fun c => is_digit c = true) (c :: s')) = S d).
  { rewrite filter_cons, decide_True by done. by eexists. }
  destruct Hcount as [d Hd]. rewrite Hd in Hv, Hmax.
  assert (Hscanned :
            match scan false 0 0%nat ((c :: s') ++ ws) with
            | Some (v, digits, rest) =>
                if (digits =? 0)%nat then None
                else if (int_max_str_digits <? digits)%nat then None
                else match skip_space rest with
                     | [] => Some v
                     | _ :: _ => None
                     end
            | None => None
            end = Some v).
  { rewrite Hv. cbn [Nat.add Nat.eqb].
    assert (Hle : (int_max_str_digits <? S d)%nat = false)
      by (apply Nat.ltb_ge; lia).
    rewrite Hle. rewrite <- (app_nil_r ws), skip_space_spaces by done. done. }
  assert (Hgen : forall sg,
            match scan false 0 0%nat ((c :: s') ++ ws) with
            | Some (v, digits, rest) =>
                if (digits =? 0)%nat then None
                else if (int_max_str_digits <? digits)%nat then None
                else match skip_space rest with
                     | [] => Some (sg * v)
                     | _ :: _ => None
                     end
            | None => None
            end = Some (sg * v)).
  { intros sg. destruct (scan false 0 0%nat ((c :: s') ++ ws))
      as [[[v' digits] rest]|]; [|done].
    destruct (digits =? 0)%nat; [done|].
    destruct (int_max_str_digits <? digits)%nat; [done|].
    destruct (skip_space rest); [|done]. by injection Hscanned as ->. }
  assert (Hplain : Ascii.eqb c "+" = false /\ Ascii.eqb c "-" = false).
  { split; apply Ascii.eqb_neq; intros ->; discriminate Hc. }
  destruct Hplain as [Hplus Hminus].
  split.
  - unfold from_string.
    change ((c :: s') ++ ws)%list with (c :: s' ++ ws)%list.
    cbn [skip_space]. rewrite (digit_not_space c Hc).
    cbn [parse_sign]. rewrite Hplus, Hminus, (digit_not_underscore c Hc).
    change (c :: s' ++ ws)%list with ((c :: s') ++ ws)%list.
    rewrite Hgen. by eexists.
  - intros Hsign. unfold from_string.
    assert (Hnospace : Py_ISSPACE sign = false) by (by destruct Hsign as [->| ->]).
    cbn [skip_space]. rewrite Hnospace.
    assert (Hparse : exists sg,
              parse_sign (sign :: (c :: s') ++ ws) = (sg, ((c :: s') ++ ws)%list)).
    { destruct Hsign as [->| ->]; by eexists. }
    destruct Hparse as [sg ->].
    change ((c :: s') ++ ws)%list with (c :: s' ++ ws)%list.
    cbn iota. rewrite (digit_not_underscore c Hc).
    change (c :: s' ++ ws)%list with ((c :: s') ++ ws)%list.
    rewrite Hgen. by eexists.
Qed.


Lemma from_string_skip ws s :
  Forall (fun c => Py_ISSPACE c = true) ws ->
  from_string (ws ++ s) = from_string s.
Proof. intros Hws. unfold from_string. by rewrite skip_space_spaces. Qed.

End IntegerLiterals.

(** [int] accepts every integer literal of at most 4300 digits. *)
Lemma py_int_integer_literal (text : string) :
  integer_literal text = true ->
  (length (digits_of text) <= PyInt.int_max_str_digits)%nat ->
  is_Some (py_int text).
Proof.
  unfold integer_literal, py_int, digits_of. intros Hlit Hmax.
  destruct (strip_split (list_ascii_of_string text))
    as (ws1 & ws2 & Hs & Hws1 & Hws2).
  revert Hlit Hmax. rewrite Hs at 2 3.
  generalize (strip (list_ascii_of_string text)). clear Hs. intros core Hlit.
  rewrite !filter_app, (filter_digit_spaces ws1), (filter_digit_spaces ws2),
    app_nil_r by done.
  cbn [app]. intros Hmax.
  assert (Hspaces : forall ws, Forall (fun c => literal_space c = true) ws ->
            Forall (fun c => PyInt.Py_ISSPACE c = true) (as_ascii_space <$> ws)).
  { intros ws Hws. apply Forall_fmap. eapply Forall_impl; [exact Hws|].
    apply as_ascii_space_space. }
  rewrite transform_space_app, from_string_skip by auto.
  destruct core as [|c body]; [done|]. cbn [signed_digitpart] in Hlit.
  destruct (Ascii.eqb c "+" || Ascii.eqb c "-") eqn:Hsign.
  - assert (Hc : c = "+"%char \/ c = "-"%char).
    { apply orb_true_iff in Hsign as [H|H]; apply Ascii.eqb_eq in H; auto. }
    assert (Hlt : (PyInt.code c <? 127)%N = true) by (by destruct Hc as [->| ->]).
    assert (Hnd : PyInt.is_digit c <> true) by (by destruct Hc as [->| ->]).
    rewrite filter_cons, decide_False in Hmax by done.
    change ((c :: body) ++ ws2)%list with (c :: body ++ ws2)%list.
    cbn [PyInt.transform]. rewrite Hlt.
    rewrite (digitpart_plain _ body (le_n _) Hlit), transform_space by done.
    by apply from_string_digitpart; auto.
  - rewrite (digitpart_plain _ (c :: body) (le_n _) Hlit), transform_space
      by done.
    by apply (from_string_digitpart "+"%char); auto.
Qed.

(** ** Orchestrator *)

Section RunProperties.

Variable urljoin : string -> string -> option string.
Variable requests_get : nat -> string -> response.
Variable to_csv : string -> table -> write_result.

Lemma requests_made_app log1 log2 :
  requests_made (log1 ++ log2) = (requests_made log1 + requests_made log2)%nat.
Proof. unfold requests_made. by rewrite filter_app, length_app. Qed.

Lemma requests_made_request_events url r :
  requests_made (request_events url r) = 1%nat.
Proof. by destruct r. Qed.

Lemma get_soup_from_url_run url log :
  get_soup_from_url requests_get url log =
  (soup_result (requests_get (requests_made log) url),
   (log ++ request_events url (requests_get (requests_made log) url))%list).
Proof.
  unfold get_soup_from_url. by destruct (requests_get (requests_made log) url).
Qed.

Lemma scrape_details_truthy soup :
  exists d, scrape_one_place_details (Some soup) = Some d /\ dict_truthy d = true.
Proof. eexists. split; [reflexivity|]. reflexivity. Qed.

Lemma fetch_details_run m url log :
  link m = Some url ->
  fetch_details requests_get m log =
  (details_result m (requests_get (requests_made log) url),
   (log ++ request_events url (requests_get (requests_made log) url))%list).
Proof.
  intros Hlink. unfold fetch_details, bind. rewrite Hlink, get_soup_from_url_run.
  destruct (requests_get (requests_made log) url) as [soup| |e]; [|done..].
  cbn [soup_result details_result fetched]. unfold with_details.
  change (Some soup ≫= _) with (scrape_one_place_details (Some soup)).
  by destruct (scrape_details_truthy soup) as (d & -> & ->).
Qed.

Lemma for_each_fetch_details ms : forall log,
  Forall (fun m => is_Some (link m)) ms ->
  for_each (fetch_details requests_get) ms log =
  match first_raise requests_get (requests_made log) ms with
  | None =>
      (Ok (detail_records requests_get (requests_made log) ms),
       (log ++ detail_log requests_get (requests_made log) ms)%list)
  | Some (k, e) =>
      (Raise e,
       (log ++ detail_log requests_get (requests_made log) (take (S k) ms))%list)
  end.
Proof.
  induction ms as [|m ms IH]; intros log Hlinks.
  - simpl. unfold ret. by rewrite app_nil_r.
  - apply Forall_cons in Hlinks as [[url Hurl] Hlinks].
    cbn [for_each first_raise detail_records detail_log take].
    unfold bind at 1. rewrite (fetch_details_run _ url) by done.
    rewrite Hurl. change (default "" (Some url)) with url.
    destruct (requests_get (requests_made log) url) as [soup| |e];
      cbn [details_result raised fetched].
    3: { cbn [take detail_log]. by rewrite app_nil_r. }
    all: unfold bind at 1; rewrite IH by done;
      rewrite requests_made_app; cbn [request_events];
      change (requests_made [Get url true]) with 1%nat;
      change (requests_made [Get url false; Print MsgDownloadError]) with 1%nat;
      rewrite Nat.add_1_r;
      destruct (first_raise requests_get (S (requests_made log)) ms)
        as [[k e]|]; cbn [fmap option_fmap option_map prod_map fst snd id];
      unfold ret; by rewrite <- app_assoc.
Qed.

Lemma for_each_fetch_details_ok ms log :
  Forall (fun m => is_Some (link m)) ms ->
  first_raise requests_get (requests_made log) ms = None ->
  for_each (fetch_details requests_get) ms log =
  (Ok (detail_records requests_get (requests_made log) ms),
   (log ++ detail_log requests_get (requests_made log) ms)%list).
Proof. intros Hlinks Hnone. by rewrite for_each_fetch_details, Hnone. Qed.

Lemma stubs_have_links base_url rows stubs :
  scrape_rows urljoin base_url rows = Ok stubs ->
  Forall (fun m => is_Some (link m)) stubs.
Proof.
  intros [Hr ->]%scrape_rows_ok. apply Forall_fmap.
  eapply Forall_impl; [exact Hr|]. by intros row Hrow.
Qed.

(** The run up to the end of the detail loop. *)
Lemma main_run url filename page stubs :
  requests_get 0 url = Page page ->
  scrape_rows urljoin url (select page MAIN_TABLE_SELECTOR) = Ok stubs ->
  stubs <> [] ->
  main urljoin requests_get to_csv url filename [] =
  match first_raise requests_get 1 stubs with
  | None =>
      (export_to_csv to_csv (detail_records requests_get 1 stubs) filename ;;
       print MsgProgramDone)%prog
        (prelude url (length stubs) ++ detail_log requests_get 1 stubs
           ++ [Print MsgDetailsDone])%list
  | Some (k, e) =>
      (Raise e,
       (prelude url (length stubs) ++
        detail_log requests_get 1 (take (S k) stubs))%list)
  end.
Proof.
  intros Hpage Hstubs Hne. unfold main.
  unfold bind at 1. unfold print at 1, emit. simpl app.
  unfold bind at 1. rewrite get_soup_from_url_run.
  change (requests_made _) with 0%nat. rewrite Hpage.
  cbn [soup_result fetched request_events]. simpl app.
  unfold bind at 1. unfold print at 1, emit. simpl app.
  unfold bind at 1. unfold scrape_municipalities_list.
  rewrite Hstubs. unfold bind at 1. unfold lift at 1.
  unfold bind at 1. unfold print at 1, emit. simpl app.
  unfold ret at 1.
  pose proof (stubs_have_links _ _ _ Hstubs) as Hlinks.
  destruct stubs as [|m ms] eqn:Heq; [done|].
  unfold bind at 1. unfold print at 1, emit. simpl app.
  unfold bind at 1. rewrite for_each_fetch_details by done.
  change (requests_made _) with 1%nat.
  destruct (first_raise requests_get 1 (m :: ms)) as [[k e]|]; [done|].
  unfold bind at 1. unfold print at 1, emit.
  unfold prelude. by f_equal.
Qed.

Lemma main_listing_failed url filename :
  requests_get 0 url = RequestException ->
  main urljoin requests_get to_csv url filename [] =
  (Ok tt, [Print MsgDownloadingMain; Get url false; Print MsgDownloadError;
           Print MsgMainPageFailed]).
Proof.
  intros Hpage. unfold main, bind, print, emit. rewrite get_soup_from_url_run.
  change (requests_made _) with 0%nat. by rewrite Hpage.
Qed.

Lemma main_listing_raises url filename e :
  requests_get 0 url = Raises e ->
  main urljoin requests_get to_csv url filename [] =
  (Raise e, [Print MsgDownloadingMain; Get url false]).
Proof.
  intros Hpage. unfold main, bind, print, emit. rewrite get_soup_from_url_run.
  change (requests_made _) with 0%nat. by rewrite Hpage.
Qed.

Lemma main_urljoin_raises url filename page e :
  requests_get 0 url = Page page ->
  scrape_rows urljoin url (select page MAIN_TABLE_SELECTOR) = Raise e ->
  main urljoin requests_get to_csv url filename [] =
  (Raise e, [Print MsgDownloadingMain; Get url true; Print MsgGettingList]).
Proof.
  intros Hpage Hraise.
  unfold main, bind, print, emit, scrape_municipalities_list, bind, lift.
  rewrite get_soup_from_url_run. change (requests_made _) with 0%nat.
  rewrite Hpage. cbn [soup_result fetched]. by rewrite Hraise.
Qed.

Lemma main_no_municipalities url filename page :
  requests_get 0 url = Page page ->
  scrape_rows urljoin url (select page MAIN_TABLE_SELECTOR) = Ok [] ->
  main urljoin requests_get to_csv url filename [] =
  (Ok tt, [Print MsgDownloadingMain; Get url true; Print MsgGettingList;
           Print (MsgFound 0); Print MsgNoMunicipalities]).
Proof.
  intros Hpage Hnone.
  unfold main, bind, print, emit, scrape_municipalities_list, bind, print, emit,
    ret, lift.
  rewrite get_soup_from_url_run. change (requests_made _) with 0%nat.
  rewrite Hpage. cbn [soup_result fetched]. by rewrite Hnone.
Qed.

Lemma export_to_csv_run municipalities_data filename log :
  export_to_csv to_csv municipalities_data filename log =
  match export_table municipalities_data with
  | Ok dataframe =>
      match to_csv filename dataframe with
      | Written =>
          (Ok tt,
           (log ++ [Print (MsgExporting filename);
                    ToCsv filename dataframe true;
                    Print (MsgSaved filename)])%list)
      | IOError =>
          (Ok tt,
           (log ++ [Print (MsgExporting filename);
                    ToCsv filename dataframe false;
                    Print MsgWriteError])%list)
      | WriteRaises e =>
          (Raise e,
           (log ++ [Print (MsgExporting filename);
                    ToCsv filename dataframe false])%list)
      end
  | Raise e => (Raise e, (log ++ [Print (MsgExporting filename)])%list)
  end.
Proof.
  unfold export_to_csv, bind, print, emit, lift, dataframe_to_csv.
  destruct (export_table municipalities_data) as [dataframe|e]; [|done].
  destruct (to_csv filename dataframe); by rewrite <- !app_assoc.
Qed.

(** The run from the export on. *)
Lemma export_and_close municipalities_data filename log :
  (export_to_csv to_csv municipalities_data filename ;;
   print MsgProgramDone)%prog log =
  match export_table municipalities_data with
  | Ok dataframe =>
      (write_return (to_csv filename dataframe),
       (log ++ Print (MsgExporting filename)
            :: write_events filename dataframe (to_csv filename dataframe))%list)
  | Raise e => (Raise e, (log ++ [Print (MsgExporting filename)])%list)
  end.
Proof.
  unfold bind at 1. rewrite export_to_csv_run.
  destruct (export_table municipalities_data) as [dataframe|e]; [|done].
  destruct (to_csv filename dataframe); unfold print, emit;
    cbn [write_return write_events]; by rewrite <- ?app_assoc.
Qed.


Lemma detail_log_requests n ms :
  requests_made (detail_log requests_get n ms) = length ms.
Proof.
  revert n. induction ms as [|m ms IH]; intros n; simpl; [done|].
  by rewrite requests_made_app, requests_made_request_events, IH.
Qed.

(** C8: when the listing page is fetched and parsed but no stub is
    extracted from it, the run ends at once: its log holds the request of the
    listing page and no other request, and no write. *)
Theorem no_municipalities_stops_run (url filename : string) (page : Tag) :
  requests_get 0 url = Page page ->
  scrape_rows urljoin url (select page MAIN_TABLE_SELECTOR) = Ok [] ->
  exists log,
    main urljoin requests_get to_csv url filename [] = (Ok tt, log) /\
    log = [Print MsgDownloadingMain; Get url true; Print MsgGettingList;
           Print (MsgFound 0); Print MsgNoMunicipalities] /\
    filter is_get log = [Get url true] /\
    filter is_to_csv log = [].
Proof.
  intros Hpage Hnone. eexists. split; [by apply (main_no_municipalities _ _ page)|].
  split; [done|]. split; reflexivity.
Qed.

Lemma detail_log_quiet n ms :
  Forall no_write (detail_log requests_get n ms).
Proof.
  revert n. induction ms as [|m ms IH]; intros n; simpl; [constructor|].
  apply Forall_app. split; [|apply IH].
  destruct (requests_get n (default "" (link m))); by repeat constructor.
Qed.

(** Every run either makes no write attempt, or ends with its one write
    attempt and what follows it. *)
Lemma main_write_shape url filename r log :
  main urljoin requests_get to_csv url filename [] = (r, log) ->
  Forall no_write log \/
  (exists log0 dataframe,
     Forall no_write log0 /\
     r = write_return (to_csv filename dataframe) /\
     log = (log0 ++ write_events filename dataframe
                      (to_csv filename dataframe))%list).
Proof.
  destruct (requests_get 0 url) as [page| |e] eqn:Hpage.
  2: { rewrite main_listing_failed by done. intros [= <- <-]. left.
       by repeat constructor. }
  2: { rewrite (main_listing_raises _ _ e) by done. intros [= <- <-]. left.
       by repeat constructor. }
  destruct (scrape_rows urljoin url (select page MAIN_TABLE_SELECTOR))
    as [[|m ms]|e] eqn:Hstubs.
  { rewrite (main_no_municipalities _ _ page) by done. intros [= <- <-]. left.
    by repeat constructor. }
  2: { rewrite (main_urljoin_raises _ _ page e) by done. intros [= <- <-].
       left. by repeat constructor. }
  rewrite (main_run _ _ page (m :: ms)) by done.
  destruct (first_raise requests_get 1 (m :: ms)) as [[k e]|].
  { generalize (take (S k) (m :: ms)). intros l [= <- <-]. left.
    repeat (apply Forall_cons; split; [done|]). apply detail_log_quiet. }
  assert (Hpre : Forall no_write
                   (prelude url (length (m :: ms)) ++
                    detail_log requests_get 1 (m :: ms) ++
                    [Print MsgDetailsDone])%list).
  { apply Forall_app. split; [by repeat constructor|].
    apply Forall_app. split; [apply detail_log_quiet | by repeat constructor]. }
  revert Hpre. generalize (prelude url (length (m :: ms)) ++
    detail_log requests_get 1 (m :: ms) ++ [Print MsgDetailsDone])%list.
  intros pre Hpre. rewrite export_and_close.
  destruct (export_table (detail_records requests_get 1 (m :: ms)))
    as [dataframe|e].
  - intros [= <- <-]. right.
    exists (pre ++ [Print (MsgExporting filename)])%list, dataframe.
    split; [|split; [done|]].
    + apply Forall_app. split; [exact Hpre | by repeat constructor].
    + by rewrite <- app_assoc.
  - intros [= <- <-]. left. apply Forall_app. split; [exact Hpre|].
    by repeat constructor.
Qed.

(** The shape of a failed write: when [to_csv] raises [IOError],
    [export_to_csv] makes one write attempt, prints the failure message and
    not the message of a successful write, and returns without an exception.
    A run of [main] whose write attempt fails in this way makes no other
    attempt and returns without an exception; its log ends with the failure
    message followed by the closing message of [main]. *)
Lemma export_write_failure (filename : string) :
  (forall municipalities_data dataframe log,
     export_table municipalities_data = Ok dataframe ->
     to_csv filename dataframe = IOError ->
     export_to_csv to_csv municipalities_data filename log =
     (Ok tt, (log ++ [Print (MsgExporting filename);
                      ToCsv filename dataframe false;
                      Print MsgWriteError])%list)) /\
  (forall url r log f dataframe,
     main urljoin requests_get to_csv url filename [] = (r, log) ->
     ToCsv f dataframe false ∈ log ->
     to_csv filename dataframe = IOError ->
     r = Ok tt /\ f = filename /\
     exists log0,
       log = (log0 ++ [ToCsv filename dataframe false; Print MsgWriteError;
                       Print MsgProgramDone])%list /\
       Forall no_write log0).
Proof.
  split.
  - intros ms dataframe log Ht Hw. by rewrite export_to_csv_run, Ht, Hw.
  - intros url r log f dataframe Hmain Hin Hw.
    destruct (main_write_shape _ _ _ _ Hmain)
      as [Hnone|(log0 & t & Hlog0 & -> & ->)].
    { rewrite Forall_forall in Hnone. apply Hnone in Hin as [Hin _]. done. }
    apply elem_of_app in Hin as [Hin|Hin].
    { rewrite Forall_forall in Hlog0. apply Hlog0 in Hin as [Hin _]. done. }
    assert (Heq : f = filename /\ dataframe = t).
    { destruct (to_csv filename t); cbn [write_events] in Hin;
        repeat (apply elem_of_cons in Hin as [Hin|Hin];
                [by (discriminate || injection Hin as -> ->)|]);
        by apply elem_of_nil in Hin. }
    destruct Heq as [-> ->]. rewrite Hw. cbn [write_return write_events].
    split; [done|]. split; [done|]. by exists log0.
Qed.


Lemma detail_records_length n ms :
  length (detail_records requests_get n ms) = length ms.
Proof. revert n. induction ms; intros n; simpl; auto. Qed.

End RunProperties.

(** ** The conversion of the party ids *)

Lemma long_id_is_party_id : long_id ∈ all_party_ids [long_id_record].
Proof.
  apply elem_of_all_party_ids. eexists long_id_record, _.
  split; [by left|]. split; [reflexivity|].
  rewrite dom_list_to_map_L. set_solver.
Qed.

(** C10 (as amended): the sort step converts every collected party id with
    [int].  When every party id of the records is an integer literal of at
    most 4300 digits, [int] accepts each of them and the conversion does not
    fail; with the party id 12a, which is no integer literal,
    [export_to_csv] raises [ValueError] after its first message, before any
    write, whatever the write would do. *)
Theorem export_int_conversion :
  (forall municipalities_data,
     (forall party_number, party_number ∈ all_party_ids municipalities_data ->
        integer_literal party_number = true /\
        (length (digits_of party_number) <= PyInt.int_max_str_digits)%nat) ->
     (forall party_number, party_number ∈ all_party_ids municipalities_data ->
        is_Some (py_int party_number)) /\
     (exists sorted_parties,
        sort_parties (collect_all_parties municipalities_data) = Ok sorted_parties) /\
     export_table municipalities_data <> Raise ValueError) /\
  (forall to_csv filename log,
     "12a" ∈ all_party_ids [bad_id_record] /\
     integer_literal "12a" = false /\ py_int "12a" = None /\
     export_to_csv to_csv [bad_id_record] filename log =
     (Raise ValueError, (log ++ [Print (MsgExporting filename)])%list)).
Proof.
  split.
  - intros ms Hliteral.
    assert (Hvalid : forall k, k ∈ all_party_ids ms -> is_Some (py_int k)).
    { intros k Hk. destruct (Hliteral k Hk). by apply py_int_integer_literal. }
    split; [exact Hvalid|].
    destruct (sort_parties_valid (collect_all_parties ms)) as [sorted Hsort].
    { intros k. rewrite collect_all_parties_dom. apply Hvalid. }
    split; [by eexists|]. unfold export_table. rewrite Hsort. simpl.
    unfold frame_getitem. by destruct (decide _).
  - intros to_csv filename log.
    assert (Hin : "12a" ∈ all_party_ids [bad_id_record]).
    { apply elem_of_all_party_ids. eexists bad_id_record, _.
      split; [by left|]. split; [reflexivity|].
      rewrite dom_list_to_map_L. set_solver. }
    split; [done|]. split; [reflexivity|]. split; [reflexivity|].
    by rewrite export_to_csv_run, (export_table_invalid _ "12a").
Qed.

(** C10 (as stated) fails: a party id of 4301 decimal digits is an integer
    literal, and [int] refuses it for its length: the conversion fails and
    the export raises [ValueError]. *)
Lemma long_id_conversion_fails :
  integer_literal long_id = true /\
  length (digits_of long_id) = 4301%nat /\
  long_id ∈ all_party_ids [long_id_record] /\
  (forall party_number, party_number ∈ all_party_ids [long_id_record] ->
     integer_literal party_number = true) /\
  py_int long_id = None /\
  sort_parties (collect_all_parties [long_id_record]) = Raise ValueError /\
  export_table [long_id_record] = Raise ValueError.
Proof.
  assert (Hnone : py_int long_id = None) by (by vm_compute).
  assert (Hlit : integer_literal long_id = true) by (by vm_compute).
  split; [exact Hlit|]. split; [by vm_compute|].
  split; [apply long_id_is_party_id|]. split.
  { intros k (m & ps & Hm & Hps & Hk)%elem_of_all_party_ids.
    apply list_elem_of_singleton in Hm as ->.
    cbv [long_id_record sample_record parties] in Hps. injection Hps as <-.
    rewrite dom_insert_L, dom_empty_L in Hk.
    assert (k = long_id) as -> by set_solver. exact Hlit. }
  split; [exact Hnone|].
  assert (Hsort : sort_parties (collect_all_parties [long_id_record])
                  = Raise ValueError).
  { apply (sort_parties_invalid _ long_id); [|exact Hnone].
    rewrite collect_all_parties_dom. apply long_id_is_party_id. }
  split; [exact Hsort|].
  apply (export_table_invalid _ long_id); [apply long_id_is_party_id | exact Hnone].
Qed.

(** ** A record without details in the export *)


Lemma export_table_ok_sort municipalities_data dataframe :
  export_table municipalities_data = Ok dataframe ->
  exists sorted_parties,
    sort_parties (collect_all_parties municipalities_data) = Ok sorted_parties.
Proof.
  unfold export_table.
  destruct (sort_parties (collect_all_parties municipalities_data)) as [l|e];
    [by eexists | discriminate].
Qed.




Lemma row_cells_base sorted_parties m :
  Forall (fun c => c ∉ snd <$> sorted_parties) base_columns ->
  row_cells sorted_parties base_columns m =
  (fun c => default (CStr DEFAULT_VALUE) (municipality_get m c)) <$> base_columns.
Proof.
  intros Hfree. unfold row_cells. apply Forall_fmap_ext_1.
  rewrite Forall_forall in Hfree. apply Forall_forall. intros c Hin.
  rewrite make_csv_row_other, base_row_lookup by auto.
  by rewrite decide_True.
Qed.

Section DetailFailure.

Variable urljoin : string -> string -> option string.
Variable requests_get : nat -> string -> response.
Variable to_csv : string -> table -> write_result.

Lemma stub_fields base_url rows stubs s :
  scrape_rows urljoin base_url rows = Ok stubs ->
  s ∈ stubs ->
  exists c name url, s = stub c name url.
Proof.
  intros [Hr ->]%scrape_rows_ok (row & -> & Hin)%list_elem_of_fmap.
  rewrite Forall_forall in Hr. destruct (Hr _ Hin) as [full_link Hl].
  unfold row_stub, stub. rewrite Hl. by do 3 eexists.
Qed.

Lemma first_raise_some n ms k e :
  first_raise requests_get n ms = Some (k, e) ->
  exists m, ms !! k = Some m /\
            requests_get (n + k) (default "" (link m)) = Raises e.
Proof.
  revert n k. induction ms as [|m ms IH]; intros n k; [done|].
  cbn [first_raise].
  destruct (requests_get n (default "" (link m))) as [soup| |e'] eqn:Hr;
    cbn [raised].
  3: { intros [= <- <-]. exists m. by rewrite Nat.add_0_r. }
  all: destruct (first_raise requests_get (S n) ms) as [[k' e']|] eqn:Hf;
    [|done]; intros [= <- <-]; destruct (IH _ _ Hf) as (m' & Hm' & Hr');
    exists m'; split; [done|]; by rewrite Nat.add_succ_r.
Qed.

Lemma first_raise_none n ms i m :
  first_raise requests_get n ms = None ->
  ms !! i = Some m ->
  raised (requests_get (n + i) (default "" (link m))) = None.
Proof.
  revert n i. induction ms as [|m' ms IH]; intros n i; [done|].
  cbn [first_raise].
  destruct (raised (requests_get n (default "" (link m')))) as [e|] eqn:Hr;
    [done|].
  destruct (first_raise requests_get (S n) ms) as [[k' e']|] eqn:Hf; [done|].
  intros _. destruct i as [|i]; simpl.
  - intros [= <-]. by rewrite Nat.add_0_r.
  - intros Hm. rewrite Nat.add_succ_r. by apply (IH (S n)).
Qed.


End DetailFailure.


(** ** Instances on the sample data *)


(** C4 (as stated) fails: the party ids 01 and 1 denote the same integer,
    and their columns are neighbours. *)
Lemma leading_zero_columns_tie :
  sort_parties (collect_all_parties [leading_zero_record]) =
    Ok [("01", "PartyY"); ("1", "PartyX")] /\
  py_int "01" = Some 1 /\ py_int "1" = Some 1 /\ ~ (1 < 1).
Proof.
  split; [by vm_compute|]. split; [reflexivity|]. split; [reflexivity | lia].
Qed.

Lemma party_columns_sorted_witness :
  exists n1 n2, py_int "1" = Some n1 /\ py_int "2" = Some n2 /\ n1 < n2.
Proof.
  assert (Hall : all_party_ids [record_A; record_B] = {["1"]} ∪ {["2"]})
    by (by vm_compute).
  destruct (party_columns_sorted [record_A; record_B])
    as (sorted_parties & dataframe & Hsort & _ & _ & Hnext).
  - discriminate.
  - rewrite Hall. intros k Hk.
    apply elem_of_union in Hk as [->%elem_of_singleton| ->%elem_of_singleton];
      by eexists.
  - vm_compute in Hsort. injection Hsort as <-.
    destruct (Hnext 0%nat "1" "PartyX" "2" "PartyY" eq_refl eq_refl)
      as (n1 & n2 & H1 & H2 & _ & _ & _ & Hlt).
    exists n1, n2. split; [exact H1|]. split; [exact H2|]. apply Hlt.
    rewrite Hall. intros a b Ha Hb.
    apply elem_of_union in Ha as [->%elem_of_singleton| ->%elem_of_singleton];
      apply elem_of_union in Hb as [->%elem_of_singleton| ->%elem_of_singleton];
      (done || (vm_compute; discriminate)).
Defined.

Lemma parties_kept_iff_name_ok_witness :
  parties_of_page sample_detail !! "1" = Some (mkParty "PartyX" 100) /\
  (forall acc, scrape_party_row acc (party_row ["3"; "-"; "7"]) = acc).
Proof.
  destruct (parties_kept_iff_name_ok sample_detail) as (Hkeep & Hdrop & _).
  split.
  - destruct (Hkeep 3%nat (party_row ["1"; "PartyX"; "100"])) as [_ Hlast].
    + reflexivity.
    + unfold qualifies. simpl. unfold MIN_CELLS_PER_ROW. lia.
    + split; discriminate.
    + apply Hlast. intros j row' Hj Hr Hq.
      destruct j as [|[|[|[|[|j]]]]]; try lia; [|discriminate Hr].
      injection Hr as <-. unfold qualifies in Hq. simpl in Hq.
      unfold MIN_CELLS_PER_ROW in Hq. lia.
  - apply Hdrop.
    + apply list_elem_of_lookup. exists 2%nat. reflexivity.
    + unfold qualifies. simpl. unfold MIN_CELLS_PER_ROW. lia.
    + intros [_ Hn]. by apply Hn.
Defined.

Lemma scrape_one_place_details_absent_iff_witness :
  scrape_one_place_details (Some blank_page) =
  Some (mkMunicipality None None None (Some 0) (Some 0) (Some 0) (Some ∅)).
Proof.
  destruct (scrape_one_place_details_absent_iff (Some blank_page)) as [_ H].
  destruct (H blank_page eq_refl) as (r & e & v & ps & Heq & Hr & He & Hv & Hps).
  rewrite Heq, Hr, He, Hv, Hps; reflexivity.
Defined.

Lemma no_municipalities_stops_run_witness :
  exists log,
    main sample_urljoin empty_requests_get disk_ok "url/" "out.csv" [] =
      (Ok tt, log) /\
    log = [Print MsgDownloadingMain; Get "url/" true; Print MsgGettingList;
           Print (MsgFound 0); Print MsgNoMunicipalities] /\
    filter is_get log = [Get "url/" true] /\
    filter is_to_csv log = [].
Proof.
  apply (no_municipalities_stops_run sample_urljoin empty_requests_get disk_ok
           "url/" "out.csv" empty_listing); reflexivity.
Defined.

(** C9: a run over Alpha and Bravo in which the file cannot be written.
    [export_to_csv] makes one write attempt, prints the failure message and
    returns without an exception; [main] then prints its closing message,
    the one of a successful run, while the runs that end after a failed
    listing request or without municipalities return before it. *)
Lemma write_failure_reports_success :
  main sample_urljoin sample_requests_get disk_full "url/" "out.csv" [] =
  (Ok tt,
   [Print MsgDownloadingMain; Get "url/" true; Print MsgGettingList;
    Print (MsgFound 2); Print MsgDetailsStart;
    Get "url/linkA" true; Get "url/linkB" false; Print MsgDownloadError;
    Print MsgDetailsDone; Print (MsgExporting "out.csv");
    ToCsv "out.csv"
      (mkTable
         ["code"; "location"; "registered"; "envelopes"; "valid";
          "PartyX"; "PartyY"]
         [[CStr "A"; CStr "Alpha"; CInt 1000; CInt 900; CInt 0;
           CInt 100; CInt 50];
          [CStr "B"; CStr "Bravo"; CStr "N/A"; CStr "N/A"; CStr "N/A";
           CInt 0; CInt 0]])
      false;
    Print MsgWriteError; Print MsgProgramDone]) /\
  (forall url filename,
     main sample_urljoin (fun _ _ => RequestException) disk_full
       url filename [] =
     (Ok tt, [Print MsgDownloadingMain; Get url false; Print MsgDownloadError;
              Print MsgMainPageFailed])) /\
  main sample_urljoin empty_requests_get disk_full "url/" "out.csv" [] =
  (Ok tt, [Print MsgDownloadingMain; Get "url/" true; Print MsgGettingList;
           Print (MsgFound 0); Print MsgNoMunicipalities]).
Proof. split; [by vm_compute|]. split; [|by vm_compute]. intros. reflexivity. Qed.

Lemma export_int_conversion_witness :
  exists sorted_parties,
    sort_parties (collect_all_parties [record_A; record_B]) = Ok sorted_parties.
Proof.
  destruct export_int_conversion as [Hvalid _].
  destruct (Hvalid [record_A; record_B]) as (_ & Hsort & _); [|exact Hsort].
  assert (Hall : all_party_ids [record_A; record_B] = {["1"]} ∪ {["2"]})
    by (by vm_compute).
  rewrite Hall. intros k Hk.
  apply elem_of_union in Hk as [->%elem_of_singleton| ->%elem_of_singleton];
    (split; [reflexivity | vm_compute; lia]).
Defined.

(** ** The order of traversal of a dictionary does not matter

    Python traverses [all_parties] in the order of insertion, the model in
    the order of [map_to_list].  The sorted list is the same for every order
    of traversal, since the tuples are totally ordered. *)

Lemma string_not_ltb_le s1 s2 : String.ltb s2 s1 = false <-> String.le s1 s2.
Proof.
  unfold String.le, String.ltb, String.leb.
  rewrite (String.compare_antisym s1 s2).
  destruct (String.compare s2 s1); simpl; split; done.
Qed.

Lemma not_above_spec a b :
  not_above a b <->
  fst a < fst b \/
  (fst a = fst b /\
   ((fst (snd a) <> fst (snd b) /\ String.le (fst (snd a)) (fst (snd b))) \/
    (fst (snd a) = fst (snd b) /\ String.le (snd (snd a)) (snd (snd b))))).
Proof.
  destruct a as [n1 [i1 m1]], b as [n2 [i2 m2]]. unfold not_above. simpl.
  destruct (Z.eqb_spec n2 n1) as [->|Hn].
  - destruct (String.eqb_spec i2 i1) as [->|Hi]; rewrite string_not_ltb_le.
    + split; [auto|]. intros [?|[_ [[? _]|[_ ?]]]]; [lia|done..].
    + split; [intros ?; right; split; [done|]; left; split; [congruence|done]|].
      intros [?|[_ [[_ ?]|[? _]]]]; [lia|done|congruence].
  - rewrite Z.ltb_ge. split; [lia|]. intros [?|[? _]]; lia.
Qed.

Lemma not_above_trans : Transitive not_above.
Proof.
  intros a b c. rewrite !not_above_spec.
  intros [?|[Hab Hab']] [?|[Hbc Hbc']]; [left; lia..|].
  right. split; [congruence|].
  destruct Hab' as [[Hne1 Hle1]|[He1 Hle1]], Hbc' as [[Hne2 Hle2]|[He2 Hle2]].
  - left. split; [|by etrans]. intros Heq. rewrite <- Heq in Hle2.
    apply Hne1. by apply (anti_symm String.le).
  - left. rewrite <- He2. done.
  - left. rewrite He1. done.
  - right. split; [congruence | by etrans].
Qed.

Lemma not_above_antisym : AntiSymm (=) not_above.
Proof.
  intros [n1 [i1 m1]] [n2 [i2 m2]]. rewrite !not_above_spec. simpl.
  intros [?|[-> Hab]] [?|[? Hba]]; try (exfalso; lia).
  destruct Hab as [[Hne1 Hle1]|[-> Hle1]], Hba as [[Hne2 Hle2]|[He2 Hle2]];
    try congruence.
  - destruct Hne1. by apply (anti_symm String.le).
  - by rewrite (anti_symm String.le _ _ Hle1 Hle2).
Qed.

Lemma list_sort_order_irrelevant l1 l2 :
  l1 ≡ₚ l2 -> list_sort l1 = list_sort l2.
Proof.
  intros Hperm. pose proof not_above_trans. pose proof not_above_antisym.
  apply (Sorted_unique not_above); try apply list_sort_sorted.
  by rewrite !list_sort_perm.
Qed.

Lemma temp_list_fmap items l :
  temp_list items = Ok l ->
  l = (fun kv => (default 0 (py_int (fst kv)), kv)) <$> items.
Proof.
  revert l. induction items as [|[k name] items IH]; intros l; simpl.
  - by intros [= <-].
  - destruct (py_int k) as [n|] eqn:Hn; [|discriminate].
    destruct (temp_list items) as [l'|e]; simpl; [|discriminate].
    intros [= <-]. by rewrite (IH l' eq_refl).
Qed.

(** X14: the sorted list of the party columns is the same for every order
    in which the collected parties are traversed. *)
Lemma sort_parties_any_order all_parties items :
  items ≡ₚ map_to_list all_parties ->
  (l ← temp_list items; Ok (snd <$> list_sort l)) = sort_parties all_parties.
Proof.
  intros Hperm. unfold sort_parties.
  destruct (temp_list items) as [l1|e1] eqn:H1;
    destruct (temp_list (map_to_list all_parties)) as [l2|e2] eqn:H2; simpl.
  - apply temp_list_fmap in H1, H2. subst l1 l2.
    do 2 f_equal. apply list_sort_order_irrelevant. by rewrite Hperm.
  - destruct (temp_list_valid (map_to_list all_parties)) as [l Hl];
      [|congruence].
    rewrite <- Hperm. apply temp_list_ok in H1 as [<- Hall].
    apply Forall_fmap. eapply Forall_impl; [exact Hall|].
    intros x Hx. simpl. by rewrite Hx.
  - destruct (temp_list_valid items) as [l Hl]; [|congruence].
    rewrite Hperm. apply temp_list_ok in H2 as [<- Hall].
    apply Forall_fmap. eapply Forall_impl; [exact Hall|].
    intros x Hx. simpl. by rewrite Hx.
  - assert (Hv : forall its e, temp_list its = Raise e -> e = ValueError).
    { intros its e. induction its as [|[k n] l IH]; simpl; [done|].
      destruct (py_int k); [|by intros [= <-]].
      destruct (temp_list l); simpl; [done|]. intros [= <-]. by apply IH. }
    by rewrite (Hv _ _ H1), (Hv _ _ H2).
Qed.

(** * Further properties of the code *)

(** ** Text Normalizer: numbers with separators, texts without digits *)

Section NumberTexts.

Import PyInt.

Lemma is_digit_code c : is_digit c = true -> (48 <= code c <= 57)%N.
Proof.
  unfold is_digit. intros [H1 H2]%andb_true_iff.
  apply N.leb_le in H1, H2. lia.
Qed.

Lemma is_digit_plain c :
  is_digit c = true ->
  is_underscore c = false /\ Py_ISSPACE c = false /\ (code c <? 127)%N = true /\
  Ascii.eqb c "+" = false /\ Ascii.eqb c "-" = false.
Proof.
  intros Hd%is_digit_code. unfold is_underscore, Py_ISSPACE.
  repeat split.
  - apply N.eqb_neq. lia.
  - apply orb_false_iff. split.
    + apply andb_false_iff. right. apply N.leb_gt. lia.
    + apply N.eqb_neq. lia.
  - apply N.ltb_lt. lia.
  - destruct (Ascii.eqb_spec c "+") as [->|]; [|done].
    change (code "+") with 43%N in Hd. lia.
  - destruct (Ascii.eqb_spec c "-") as [->|]; [|done].
    change (code "-") with 45%N in Hd. lia.
Qed.

Lemma transform_digits ds :
  Forall (fun c => is_digit c = true) ds -> transform ds = ds.
Proof.
  induction 1 as [|c ds Hc _ IH]; simpl; [done|].
  destruct (is_digit_plain c Hc) as (_ & _ & -> & _). by rewrite IH.
Qed.

Lemma scan_digits ds : forall prev acc n,
  Forall (fun c => is_digit c = true) ds -> (ds <> [] \/ prev = false) ->
  scan prev acc n ds =
  Some (fold_left (fun a c => 10 * a + digit_value c) ds acc,
        (n + length ds)%nat, []).
Proof.
  induction ds as [|c ds IH]; intros prev acc n Hall Hne; simpl.
  - destruct Hne as [?| ->]; [done|]. by rewrite Nat.add_0_r.
  - apply Forall_cons in Hall as [Hc Hall].
    destruct (is_digit_plain c Hc) as (-> & _). rewrite Hc.
    rewrite IH by auto. by rewrite Nat.add_succ_r.
Qed.

Lemma from_string_digits ds :
  Forall (fun c => is_digit c = true) ds -> ds <> [] ->
  (length ds <= int_max_str_digits)%nat ->
  from_string ds = Some (decimal_value ds).
Proof.
  intros Hall Hne Hlen. unfold from_string.
  destruct ds as [|c ds]; [done|].
  pose proof (Forall_inv Hall) as Hc.
  destruct (is_digit_plain c Hc) as (Hu & Hs & _ & Hp & Hm).
  unfold skip_space at 1. rewrite Hs. unfold parse_sign. rewrite Hp, Hm, Hu.
  rewrite scan_digits by auto.
  destruct (Nat.eqb_spec (0 + length (c :: ds)) 0) as [Hz|_]; [simpl in Hz; lia|].
  destruct (Nat.ltb_spec int_max_str_digits (0 + length (c :: ds))) as [Hgt|_].
  { rewrite Nat.add_0_l in Hgt. lia. }
  unfold skip_space. unfold decimal_value.
  by destruct (fold_left _ (c :: ds) 0).
Qed.

Lemma scan_reads_digit s : forall prev acc n v n' rest,
  scan prev acc n s = Some (v, n', rest) -> n' <> n ->
  Exists (fun c => is_digit c = true) s.
Proof.
  induction s as [|c s IH]; intros prev acc n v n' rest; simpl.
  - destruct prev; [done|]. intros [= _ <- _]. done.
  - destruct (is_underscore c).
    + destruct prev; [done|]. intros Hs Hn. right. by eapply IH.
    + destruct (is_digit c) eqn:Hd; [by left|].
      destruct prev; [done|]. intros [= _ <- _]. done.
Qed.

Lemma transform_digit_origin s :
  Exists (fun c => is_digit c = true) (transform s) ->
  Exists (fun c => is_digit c = true) s.
Proof.
  induction s as [|c s IH]; simpl; [done|].
  destruct (code c <? 127)%N.
  - intros [Hc|Hs]%Exists_cons; [by left | right; auto].
  - destruct (unicode_isspace c).
    + intros [Hc|Hs]%Exists_cons; [discriminate | right; auto].
    + intros [Hc|Hs]%Exists_cons; [discriminate | by inversion Hs].
Qed.

Lemma from_string_reads_digit s z :
  from_string s = Some z -> Exists (fun c => is_digit c = true) s.
Proof.
  unfold from_string.
  assert (Hsign : forall t, Exists (fun c => is_digit c = true)
                              (snd (parse_sign t)) ->
                            Exists (fun c => is_digit c = true) t).
  { intros [|c t]; simpl; [done|].
    destruct (Ascii.eqb c "+"); [by right|].
    destruct (Ascii.eqb c "-"); [by right | done]. }
  assert (Hskip : Exists (fun c => is_digit c = true) (skip_space s) ->
                  Exists (fun c => is_digit c = true) s).
  { destruct (skip_space_suffix s) as [k Hk]. rewrite Hk at 2.
    intros ?. apply Exists_app. by right. }
  specialize (Hsign (skip_space s)).
  destruct (parse_sign (skip_space s)) as [sign s1]. simpl in Hsign.
  destruct s1 as [|c s1]; [done|].
  destruct (is_underscore c); [done|].
  destruct (scan false 0 0%nat (c :: s1)) as [[[v digits] rest]|] eqn:Hscan;
    [|done].
  destruct (Nat.eqb_spec digits 0) as [|Hz]; [done|].
  intros _. apply Hskip, Hsign. by eapply scan_reads_digit.
Qed.

End NumberTexts.

Lemma clean_number_some s :
  clean_number (Some s) = default 0 (py_int (without_spaces s)).
Proof. rewrite <- cleaned_text_without_spaces. by destruct s. Qed.

Lemma without_spaces_digits s :
  Forall digit_or_space (list_ascii_of_string s) ->
  without_spaces s = string_of_list_ascii (digits_of s).
Proof.
  unfold without_spaces, digits_of. intros Hall. f_equal.
  induction Hall as [|c l Hc _ IH]; [done|].
  rewrite !filter_cons, IH.
  destruct Hc as [Hd|[->| ->]].
  - rewrite decide_True; [by rewrite decide_True|].
    split; intros ->; by vm_compute in Hd.
  - rewrite decide_False by tauto. by rewrite decide_False by (by vm_compute).
  - rewrite decide_False by tauto. by rewrite decide_False by (by vm_compute).
Qed.

(** X1: a text made of decimal digits and ordinary or non-breaking spaces,
    with at least one digit and no more digits than [int] accepts, is
    normalised to the number that its digits denote. *)
Theorem clean_number_separated_digits (text : string) :
  Forall digit_or_space (list_ascii_of_string text) ->
  digits_of text <> [] ->
  (length (digits_of text) <= PyInt.int_max_str_digits)%nat ->
  clean_number (Some text) = decimal_value (digits_of text).
Proof.
  intros Hall Hne Hlen. rewrite clean_number_some.
  rewrite without_spaces_digits by done. unfold py_int.
  rewrite list_ascii_of_string_of_list_ascii.
  assert (Hd : Forall (fun c => PyInt.is_digit c = true) (digits_of text)).
  { apply Forall_forall. intros c Hc. unfold digits_of in Hc.
    by apply list_elem_of_filter in Hc as [Hc _]. }
  rewrite transform_digits, from_string_digits by done. done.
Qed.

Lemma clean_number_separated_digits_witness :
  clean_number (Some (String "1" (String NON_BREAKING_SPACE "234 567"))) =
  1234567.
Proof.
  rewrite clean_number_separated_digits.
  - reflexivity.
  - repeat constructor; by vm_compute; auto.
  - by vm_compute.
  - vm_compute. repeat constructor.
Defined.

(** X2: a text of 8-bit characters (U+0000 to U+00FF, the texts of this
    development) that holds none of the digits 0 to 9 is normalised to 0,
    whatever else it holds. *)
Theorem clean_number_no_digit (text : string) :
  digits_of text = [] -> clean_number (Some text) = 0.
Proof.
  intros Hnone. rewrite clean_number_some.
  rewrite <- cleaned_text_without_spaces.
  destruct (py_int (cleaned_text text)) as [z|] eqn:Hz; [|done].
  exfalso. apply from_string_reads_digit, transform_digit_origin in Hz.
  apply Exists_exists in Hz as (c & Hc & Hd).
  unfold cleaned_text in Hc. do 2 apply replace_with_empty_elem in Hc.
  assert (Hin : c ∈ digits_of text) by (by apply list_elem_of_filter).
  rewrite Hnone in Hin. by apply elem_of_nil in Hin.
Qed.

Lemma clean_number_no_digit_witness : clean_number (Some "- n/a -") = 0.
Proof. apply clean_number_no_digit. by vm_compute. Defined.

(** ** Listing Extractor: what a stub holds *)

(** X3: every stub that the listing extractor returns holds a code and a
    name that are not empty, as its link what [urljoin] made of an href that is
    not empty, and none of the keys of the details. *)
Theorem scraped_stubs_complete (urljoin : string -> string -> option string)
    (base_url : string) (rows : list Tag) (stubs : list municipality) :
  scrape_rows urljoin base_url rows = Ok stubs ->
  Forall (fun m => exists c name href full_link,
            urljoin base_url href = Some full_link /\
            code m = Some c /\ location m = Some name /\
            link m = Some full_link /\
            registered m = None /\ envelopes m = None /\ valid m = None /\
            parties m = None /\
            c <> "" /\ name <> "" /\ href <> "")
    stubs.
Proof.
  intros [Hr ->]%scrape_rows_ok. apply Forall_fmap, Forall_forall.
  intros row Hin. rewrite Forall_forall in Hr.
  destruct (Hr _ Hin) as [full_link Hfull].
  apply list_elem_of_filter in Hin as [Hrow _].
  destruct Hrow as (l & n & h & Hl & Hn & Hh & ? & ? & ?).
  exists (get_text l true), (get_text n true), h, full_link.
  unfold row_href in Hfull. rewrite Hl in Hfull. simpl in Hfull.
  rewrite Hh in Hfull. simpl in Hfull.
  unfold row_stub, row_code, row_name, row_href. cbn [code location link
    registered envelopes valid parties]. rewrite Hl, Hn. simpl. rewrite Hh.
  simpl. by rewrite Hfull.
Qed.

Lemma scraped_stubs_complete_witness :
  Forall (fun m => exists c name href full_link,
            sample_urljoin "url/" href = Some full_link /\
            code m = Some c /\ location m = Some name /\
            link m = Some full_link /\
            registered m = None /\ envelopes m = None /\ valid m = None /\
            parties m = None /\
            c <> "" /\ name <> "" /\ href <> "")
    [stub "A" "Alpha" "url/linkA"; stub "B" "Bravo" "url/linkB"].
Proof.
  apply (scraped_stubs_complete sample_urljoin "url/"
           (select sample_listing MAIN_TABLE_SELECTOR)).
  reflexivity.
Defined.

(** ** Flattener: names, errors and shape of the table *)

Lemma fold_collect_parties_keeps l : forall acc party_number name,
  acc !! party_number = Some name ->
  fold_left collect_parties l acc !! party_number = Some name.
Proof.
  induction l as [|m l IH]; intros acc k name Hk; simpl; [done|].
  apply IH. rewrite collect_parties_union. by apply lookup_union_Some_l.
Qed.

(** X4: the name of a party column is the name that the first record with
    this party id gives it; later records do not change it. *)
Theorem first_name_wins (l1 : list municipality) (m : municipality)
    (l2 : list municipality) (party_number : string) (info : party_info) :
  party_number ∉ all_party_ids l1 ->
  record_parties m !! party_number = Some info ->
  collect_all_parties (l1 ++ m :: l2) !! party_number = Some (nazev info).
Proof.
  intros Hnew Hm. unfold collect_all_parties. rewrite fold_left_app. simpl.
  apply fold_collect_parties_keeps. rewrite collect_parties_union.
  fold (collect_all_parties l1).
  rewrite <- collect_all_parties_dom in Hnew. apply not_elem_of_dom in Hnew.
  rewrite lookup_union_r by done. by rewrite lookup_fmap, Hm.
Qed.

Lemma first_name_wins_witness :
  collect_all_parties [record_A; record_B_renamed] !! "2" = Some "PartyY".
Proof.
  apply (first_name_wins [] record_A [record_B_renamed] "2"
           (mkParty "PartyY" 50)).
  - unfold all_party_ids. simpl. apply not_elem_of_empty.
  - reflexivity.
Defined.

Lemma temp_list_raise items e :
  temp_list items = Raise e ->
  e = ValueError /\ Exists (fun kv => py_int (fst kv) = None) items.
Proof.
  induction items as [|[k name] items IH]; simpl; [done|].
  destruct (py_int k) as [n|] eqn:Hn.
  - destruct (temp_list items) as [l|e']; simpl; [done|].
    intros [= ->]. destruct IH as [-> Hex]; [done|]. split; [done|]. by right.
  - intros [= <-]. split; [done|]. by left.
Qed.

Lemma sort_parties_raise all_parties e :
  sort_parties all_parties = Raise e ->
  e = ValueError /\
  exists party_number,
    party_number ∈ dom all_parties /\ py_int party_number = None.
Proof.
  unfold sort_parties.
  destruct (temp_list (map_to_list all_parties)) as [l|e'] eqn:Hl; [done|].
  simpl. intros [= ->]. apply temp_list_raise in Hl as [-> Hex].
  split; [done|]. apply Exists_exists in Hex as ([k name] & Hin & Hk).
  exists k. split; [|done]. apply elem_of_dom. exists name.
  by apply elem_of_map_to_list.
Qed.

Lemma sort_parties_ok_valid all_parties sorted_parties party_number :
  sort_parties all_parties = Ok sorted_parties ->
  party_number ∈ dom all_parties -> is_Some (py_int party_number).
Proof.
  intros Hsort Hin. apply (sort_parties_dom _ _ Hsort) in Hin.
  destruct (sort_parties_ok _ _ Hsort) as (keyed & -> & _ & Hall & _).
  apply list_elem_of_fmap in Hin as ([k name] & -> & Hin).
  apply list_elem_of_fmap in Hin as ([n [k' name']] & [= <- <-] & Hin).
  rewrite Forall_forall in Hall. apply Hall in Hin. simpl in Hin. by eexists.
Qed.

Lemma all_party_ids_nil : all_party_ids [] = ∅.
Proof. done. Qed.

(** X5: the errors of the table construction.  It raises [ValueError]
    exactly when [int] refuses a party id of some record, and [KeyError]
    exactly for the empty list of records; it gives a table exactly for a
    non-empty list whose party ids are all accepted. *)
Theorem export_table_errors (municipalities_data : list municipality) :
  (export_table municipalities_data = Raise ValueError <->
   exists party_number,
     party_number ∈ all_party_ids municipalities_data /\
     py_int party_number = None) /\
  (export_table municipalities_data = Raise KeyError <->
   municipalities_data = []) /\
  ((exists dataframe, export_table municipalities_data = Ok dataframe) <->
   municipalities_data <> [] /\
   forall party_number, party_number ∈ all_party_ids municipalities_data ->
     is_Some (py_int party_number)).
Proof.
  destruct (sort_parties (collect_all_parties municipalities_data))
    as [sorted|e] eqn:Hsort.
  - assert (Hvalid : forall k, k ∈ all_party_ids municipalities_data ->
                               is_Some (py_int k)).
    { intros k Hk. eapply sort_parties_ok_valid; [exact Hsort|].
      by rewrite collect_all_parties_dom. }
    assert (Hnobad : ~ exists k, k ∈ all_party_ids municipalities_data /\
                                 py_int k = None).
    { intros (k & Hk & Hbad). destruct (Hvalid k Hk) as [n Hn]. congruence. }
    destruct municipalities_data as [|m ms].
    + rewrite export_table_empty. split; [|split].
      * split; [discriminate | intros ?; by destruct Hnobad].
      * done.
      * split; [intros [? ?]; discriminate | intros [Hnn _]; by destruct Hnn].
    + assert (Hne : m :: ms <> []) by (intros ?; discriminate).
      rewrite (export_table_rows _ _ Hne Hsort). cbv zeta.
      split; [|split].
      * split; [discriminate | intros ?; by destruct Hnobad].
      * split; discriminate.
      * split; [intros _; by split | intros _; by eexists].
  - apply sort_parties_raise in Hsort as [-> (k & Hk & Hbad)].
    rewrite collect_all_parties_dom in Hk.
    rewrite (export_table_invalid _ k) by done.
    assert (Hne : municipalities_data <> []).
    { intros ->. rewrite all_party_ids_nil in Hk. by apply not_elem_of_empty in Hk. }
    split; [|split].
    + split; [intros _; by exists k | done].
    + split; [discriminate | done].
    + split; [intros [? ?]; discriminate|].
      intros [_ Hvalid]. destruct (Hvalid k Hk) as [n Hn]. congruence.
Qed.

Lemma municipality_get_not_NaN m column x :
  municipality_get m column = Some x -> x <> NaN.
Proof.
  unfold municipality_get.
  repeat (destruct (String.eqb column _);
          [by intros (? & _ & ->)%fmap_Some|]).
  done.
Qed.

Lemma make_csv_row_cell sorted_parties m c :
  c ∈ (base_columns ++ (snd <$> sorted_parties))%list ->
  exists x, make_csv_row sorted_parties m !! c = Some x /\ x <> NaN.
Proof.
  intros Hc. destruct (decide (c ∈ snd <$> sorted_parties)) as [Hin|Hout].
  - destruct (make_csv_row_some_party _ m _ Hin) as (k & _ & ->). by eexists.
  - rewrite make_csv_row_other, base_row_lookup by done.
    apply elem_of_app in Hc as [Hc|Hc]; [|done].
    rewrite decide_True by done. eexists. split; [done|].
    destruct (municipality_get m c) as [x|] eqn:Hx; simpl; [|done].
    by eapply municipality_get_not_NaN.
Qed.

Lemma sorted_parties_length municipalities_data sorted_parties :
  sort_parties (collect_all_parties municipalities_data) = Ok sorted_parties ->
  length sorted_parties = size (all_party_ids municipalities_data).
Proof.
  intros (keyed & _ & _ & _ & Hperm)%sort_parties_ok.
  by rewrite Hperm, length_map_to_list, <- collect_all_parties_dom, size_dom.
Qed.

(** X6: the shape of the table.  It has the five base columns followed by
    one column per party id of the records, and one row per record; every
    row is as long as the header, no cell is missing, and every cell of a
    party column is an integer. *)
Theorem export_table_shape (municipalities_data : list municipality)
    (dataframe : table) :
  export_table municipalities_data = Ok dataframe ->
  take 5 (header dataframe) = base_columns /\
  length (header dataframe) = (5 + size (all_party_ids municipalities_data))%nat /\
  length (body dataframe) = length municipalities_data /\
  Forall (fun row =>
            length row = length (header dataframe) /\
            Forall (fun c => c <> NaN) row /\
            Forall (fun c => exists votes, c = CInt votes) (drop 5 row))
    (body dataframe).
Proof.
  intros Hexport.
  destruct (export_table_ok_sort _ _ Hexport) as [sorted Hsort].
  assert (Hne : municipalities_data <> []).
  { intros ->. by rewrite export_table_empty in Hexport. }
  rewrite (export_table_rows _ _ Hne Hsort) in Hexport. cbv zeta in Hexport.
  assert (dataframe =
          mkTable (base_columns ++ (snd <$> sorted))
            (row_cells sorted (base_columns ++ (snd <$> sorted)) <$>
               municipalities_data)) as -> by congruence.
  clear Hexport. cbn [header body].
  split; [done|]. split.
  { rewrite length_app, length_fmap. simpl.
    by rewrite (sorted_parties_length _ _ Hsort). }
  split; [by rewrite length_fmap|].
  apply Forall_fmap, Forall_forall. intros m _. cbv [compose]. unfold row_cells.
  split; [by rewrite length_fmap|]. split.
  - apply Forall_fmap, Forall_forall. intros c Hc. cbv [compose].
    destruct (make_csv_row_cell sorted m c Hc) as (x & -> & Hx). done.
  - rewrite fmap_app.
    rewrite (drop_app_length' _ _ 5) by done.
    apply Forall_fmap, Forall_forall. intros c Hc. cbv [compose].
    destruct (make_csv_row_some_party _ m _ Hc) as (k & _ & ->). by eexists.
Qed.

Lemma export_table_shape_witness :
  exists dataframe,
    export_table [record_A; record_B] = Ok dataframe /\
    length (header dataframe) = 7%nat /\ length (body dataframe) = 2%nat.
Proof.
  eexists. split; [by vm_compute|].
  edestruct (export_table_shape [record_A; record_B]) as (_ & Hh & Hb & _);
    [by vm_compute|].
  split; [|exact Hb]. rewrite Hh. by vm_compute.
Defined.

(** X7: the base cells.  When no party is named like a base column, the
    first five cells of the row of every record, in the order of the
    records, are its code, location, registered, envelopes and valid values,
    with the text N/A for a key that the record lacks. *)
Theorem export_base_cells (municipalities_data : list municipality)
    (dataframe : table) :
  export_table municipalities_data = Ok dataframe ->
  (forall party_number name,
     collect_all_parties municipalities_data !! party_number = Some name ->
     name ∉ base_columns) ->
  forall i m, municipalities_data !! i = Some m ->
    exists row,
      body dataframe !! i = Some row /\
      take 5 row =
        [from_option CStr (CStr DEFAULT_VALUE) (code m);
         from_option CStr (CStr DEFAULT_VALUE) (location m);
         from_option CInt (CStr DEFAULT_VALUE) (registered m);
         from_option CInt (CStr DEFAULT_VALUE) (envelopes m);
         from_option CInt (CStr DEFAULT_VALUE) (valid m)].
Proof.
  intros Hexport Hnames i m Hi.
  destruct (export_table_ok_sort _ _ Hexport) as [sorted Hsort].
  assert (Hne : municipalities_data <> []) by (intros ->; done).
  rewrite (export_table_rows _ _ Hne Hsort) in Hexport. cbv zeta in Hexport.
  assert (dataframe =
          mkTable (base_columns ++ (snd <$> sorted))
            (row_cells sorted (base_columns ++ (snd <$> sorted)) <$>
               municipalities_data)) as -> by congruence.
  clear Hexport. cbn [body].
  rewrite list_lookup_fmap, Hi. eexists. split; [reflexivity|].
  unfold row_cells at 1. rewrite fmap_app.
  rewrite (take_app_length' _ _ 5) by done.
  fold (row_cells sorted base_columns m). rewrite row_cells_base.
  - unfold base_columns, municipality_get. simpl.
    by destruct (code m), (location m), (registered m), (envelopes m), (valid m).
  - apply Forall_forall. intros c Hc Hin.
    apply list_elem_of_fmap in Hin as ([k name] & -> & Hin).
    apply (sort_parties_lookup _ _ _ _ Hsort) in Hin.
    by apply (Hnames k name).
Qed.

Lemma export_base_cells_witness :
  exists row,
    (default (mkTable [] []) (match export_table [record_A; record_B] with
                              | Ok t => Some t | Raise _ => None end)).(body)
      !! 1%nat = Some row /\
    take 5 row = [CStr "B"; CStr "Bravo"; CInt 10; CInt 9; CInt 8].
Proof.
  assert (Ht : export_table [record_A; record_B] =
               Ok (mkTable
                     ["code"; "location"; "registered"; "envelopes"; "valid";
                      "PartyX"; "PartyY"]
                     [[CStr "A"; CStr "Alpha"; CInt 10; CInt 9; CInt 8;
                       CInt 100; CInt 50];
                      [CStr "B"; CStr "Bravo"; CInt 10; CInt 9; CInt 8;
                       CInt 0; CInt 30]])) by (by vm_compute).
  destruct (export_base_cells [record_A; record_B] _ Ht) with (i := 1%nat)
    (m := record_B) as (row & Hrow & Hbase).
  - assert (Hall : collect_all_parties [record_A; record_B] =
                   {["1" := "PartyX"; "2" := "PartyY"]}) by (by vm_compute).
    rewrite Hall. intros k name Hk Hin.
    apply lookup_insert_Some in Hk as [[_ <-]|[_ Hk]].
    + repeat (apply elem_of_cons in Hin as [Hin|Hin]; [discriminate|]).
      by apply elem_of_nil in Hin.
    + apply lookup_singleton_Some in Hk as [_ <-].
      repeat (apply elem_of_cons in Hin as [Hin|Hin]; [discriminate|]).
      by apply elem_of_nil in Hin.
  - reflexivity.
  - exists row. rewrite Ht. split; [exact Hrow | exact Hbase].
Defined.

(** ** Orchestrator: requests, exceptions and the write *)

Section RunFurther.

Variable urljoin : string -> string -> option string.
Variable requests_get : nat -> string -> response.
Variable to_csv : string -> table -> write_result.

(** X8: when the request of the listing page fails, the run ends at once,
    with the one failed request and no write: without an exception and with
    the two messages of the failure when the request raised a
    [RequestException], and with the exception of the request when it raised
    another one. *)
Theorem listing_failure_stops_run (url filename : string) :
  (requests_get 0 url = RequestException ->
   exists log,
     main urljoin requests_get to_csv url filename [] = (Ok tt, log) /\
     log = [Print MsgDownloadingMain; Get url false; Print MsgDownloadError;
            Print MsgMainPageFailed] /\
     filter is_get log = [Get url false] /\
     filter is_to_csv log = []) /\
  (forall e,
     requests_get 0 url = Raises e ->
     exists log,
       main urljoin requests_get to_csv url filename [] = (Raise e, log) /\
       log = [Print MsgDownloadingMain; Get url false] /\
       filter is_get log = [Get url false] /\
       filter is_to_csv log = []).
Proof.
  split.
  - intros Hfail. eexists. split; [by apply main_listing_failed|].
    split; [done|]. split; reflexivity.
  - intros e Hraise. eexists. split; [by apply main_listing_raises|].
    split; [done|]. split; reflexivity.
Qed.

Lemma requested_urls_app log1 log2 :
  requested_urls (log1 ++ log2) = (requested_urls log1 ++ requested_urls log2)%list.
Proof. apply omap_app. Qed.

Lemma requested_urls_detail_log n ms :
  requested_urls (detail_log requests_get n ms) =
  (fun m => default "" (link m)) <$> ms.
Proof.
  revert n. induction ms as [|m ms IH]; intros n; simpl; [done|].
  rewrite requested_urls_app, IH.
  by destruct (requests_get n (default "" (link m))).
Qed.

(** X9: when the listing page is fetched, the pages requested in a run are
    the listing page and then the links of the stubs of the listing, once
    each and in the order of the listing, up to and including the first
    detail request that raises an exception which is no [RequestException];
    all of them when no request does, whether the requests are served or
    fail with a [RequestException] and whatever the export does.  No detail
    page is requested when [urljoin] raises in the listing. *)
Theorem pages_requested_in_order (url filename : string) (page : Tag) :
  requests_get 0 url = Page page ->
  requested_urls (snd (main urljoin requests_get to_csv url filename [])) =
  url :: match scrape_rows urljoin url (select page MAIN_TABLE_SELECTOR) with
         | Ok stubs =>
             take (attempted requests_get 1 stubs)
               ((fun m => default "" (link m)) <$> stubs)
         | Raise _ => []
         end.
Proof.
  intros Hpage.
  destruct (scrape_rows urljoin url (select page MAIN_TABLE_SELECTOR))
    as [[|m ms]|e] eqn:Hstubs.
  { by rewrite (main_no_municipalities _ _ _ _ _ page). }
  2: { by rewrite (main_urljoin_raises _ _ _ _ _ page e). }
  rewrite (main_run _ _ _ _ _ page (m :: ms)) by done.
  unfold attempted.
  destruct (first_raise requests_get 1 (m :: ms)) as [[k e]|].
  { cbn [snd]. rewrite requested_urls_app, requested_urls_detail_log.
    by rewrite fmap_take. }
  rewrite export_and_close.
  assert (Hpre : requested_urls
                   (prelude url (length (m :: ms)) ++
                    detail_log requests_get 1 (m :: ms) ++
                    [Print MsgDetailsDone]) =
                 url :: ((fun m => default "" (link m)) <$> (m :: ms))).
  { rewrite !requested_urls_app, requested_urls_detail_log.
    change (requested_urls (prelude _ _)) with [url].
    change (requested_urls [_]) with (@nil string).
    by rewrite app_nil_r. }
  revert Hpre. generalize (prelude url (length (m :: ms)) ++
    detail_log requests_get 1 (m :: ms) ++ [Print MsgDetailsDone])%list.
  intros pre Hpre.
  rewrite <- (length_fmap (fun m => default "" (link m)) (m :: ms)), firstn_all.
  destruct (export_table (detail_records requests_get 1 (m :: ms)))
    as [dataframe|e].
  - cbn [snd]. rewrite requested_urls_app, Hpre.
    destruct (to_csv filename dataframe); by rewrite app_nil_r.
  - cbn [snd]. rewrite requested_urls_app, Hpre. by rewrite app_nil_r.
Qed.



Lemma with_details_identity m page :
  code (with_details m page) = code m /\
  location (with_details m page) = location m /\
  link (with_details m page) = link m.
Proof. by destruct page. Qed.

Lemma detail_records_identity n ms :
  code <$> detail_records requests_get n ms = code <$> ms /\
  location <$> detail_records requests_get n ms = location <$> ms /\
  link <$> detail_records requests_get n ms = link <$> ms.
Proof.
  revert n. induction ms as [|m ms IH]; intros n; [done|].
  cbn [detail_records]. rewrite !fmap_cons.
  destruct (IH (S n)) as (-> & -> & ->).
  by destruct (with_details_identity m
                 (fetched (requests_get n (default "" (link m)))))
    as (-> & -> & ->).
Qed.

(** X11: the loop over municipalities that all have their link requests
    their pages one after the other.  When no request raises an exception
    other than [RequestException], it makes one request for each of them and
    returns as many records, in the same order, with the same code, location
    and link.  Otherwise it ends with the exception of the first such
    request, made for the municipality at its position, and makes no request
    after it. *)
Theorem detail_loop_keeps_identity (ms : list municipality) (log : list event) :
  Forall (fun m => is_Some (link m)) ms ->
  match first_raise requests_get (requests_made log) ms with
  | None =>
      exists records log',
        for_each (fetch_details requests_get) ms log = (Ok records, log') /\
        length records = length ms /\
        code <$> records = code <$> ms /\
        location <$> records = location <$> ms /\
        link <$> records = link <$> ms /\
        requests_made log' = (requests_made log + length ms)%nat
  | Some (k, e) =>
      exists m log',
        ms !! k = Some m /\
        requests_get (requests_made log + k) (default "" (link m)) = Raises e /\
        for_each (fetch_details requests_get) ms log = (Raise e, log') /\
        requests_made log' = (requests_made log + S k)%nat
  end.
Proof.
  intros Hlinks. rewrite for_each_fetch_details by done.
  destruct (first_raise requests_get (requests_made log) ms) as [[k e]|]
    eqn:Hraise.
  - destruct (first_raise_some _ _ _ _ _ Hraise) as (m & Hm & Hr).
    exists m. eexists. split; [exact Hm|]. split; [exact Hr|].
    split; [reflexivity|].
    rewrite requests_made_app, detail_log_requests, length_take.
    apply lookup_lt_Some in Hm. lia.
  - do 2 eexists. split; [reflexivity|].
    split; [apply detail_records_length|].
    destruct (detail_records_identity (requests_made log) ms) as (-> & -> & ->).
    repeat split. by rewrite requests_made_app, detail_log_requests.
Qed.

(** X12: a run with a listing whose links [urljoin] resolves, detail requests
    that raise nothing but [RequestException], a table and a writable file.
    It returns without an exception; its log is the preamble, the requests of
    the detail loop, then the write of the table of the records to the given
    file, the message of the saved file and the closing message. *)
Theorem successful_run (url filename : string) (page : Tag)
    (stubs : list municipality) (dataframe : table) :
  requests_get 0 url = Page page ->
  scrape_rows urljoin url (select page MAIN_TABLE_SELECTOR) = Ok stubs ->
  first_raise requests_get 1 stubs = None ->
  export_table (detail_records requests_get 1 stubs) = Ok dataframe ->
  to_csv filename dataframe = Written ->
  main urljoin requests_get to_csv url filename [] =
  (Ok tt,
   (prelude url (length stubs) ++ detail_log requests_get 1 stubs ++
    [Print MsgDetailsDone; Print (MsgExporting filename);
     ToCsv filename dataframe true; Print (MsgSaved filename);
     Print MsgProgramDone])%list).
Proof.
  intros Hpage Hstubs Hreturn Hexport Hwrite.
  assert (Hne : stubs <> []).
  { intros Hnil. rewrite Hnil in Hexport. simpl in Hexport.
    by rewrite export_table_empty in Hexport. }
  rewrite (main_run _ _ _ _ _ page stubs) by done. rewrite Hreturn.
  rewrite export_and_close, Hexport, Hwrite.
  cbn [write_return write_events]. f_equal. by rewrite <- !app_assoc.
Qed.

(** X18: [export_to_csv] catches the [IOError] of the write and nothing
    else.  In a run that reaches the write, an exception of [to_csv] that is
    no [IOError] leaves [export_to_csv] and [main] right after the write
    attempt: neither the failure message nor the closing message is
    printed. *)
Theorem uncaught_write_exception (url filename : string) (page : Tag)
    (stubs : list municipality) (dataframe : table) (e : exn) :
  requests_get 0 url = Page page ->
  scrape_rows urljoin url (select page MAIN_TABLE_SELECTOR) = Ok stubs ->
  first_raise requests_get 1 stubs = None ->
  export_table (detail_records requests_get 1 stubs) = Ok dataframe ->
  to_csv filename dataframe = WriteRaises e ->
  (forall log,
     export_to_csv to_csv (detail_records requests_get 1 stubs) filename log =
     (Raise e, (log ++ [Print (MsgExporting filename);
                        ToCsv filename dataframe false])%list)) /\
  main urljoin requests_get to_csv url filename [] =
  (Raise e,
   (prelude url (length stubs) ++ detail_log requests_get 1 stubs ++
    [Print MsgDetailsDone; Print (MsgExporting filename);
     ToCsv filename dataframe false])%list).
Proof.
  intros Hpage Hstubs Hreturn Hexport Hwrite. split.
  { intros log. by rewrite export_to_csv_run, Hexport, Hwrite. }
  assert (Hne : stubs <> []).
  { intros Hnil. rewrite Hnil in Hexport. simpl in Hexport.
    by rewrite export_table_empty in Hexport. }
  rewrite (main_run _ _ _ _ _ page stubs) by done. rewrite Hreturn.
  rewrite export_and_close, Hexport, Hwrite.
  cbn [write_return write_events]. f_equal. by rewrite <- !app_assoc.
Qed.

(** X19: when [urljoin] raises on the href of a complete row of the listing,
    [main] raises its [ValueError] while it extracts the listing: the number
    of municipalities is not printed, no detail page is requested and
    nothing is written. *)
Theorem unresolvable_link_stops_run (url filename : string) (page : Tag)
    (row : Tag) :
  requests_get 0 url = Page page ->
  row ∈ select page MAIN_TABLE_SELECTOR ->
  row_complete row ->
  urljoin url (row_href row) = None ->
  main urljoin requests_get to_csv url filename [] =
  (Raise ValueError,
   [Print MsgDownloadingMain; Get url true; Print MsgGettingList]).
Proof.
  intros Hpage Hrow Hcomplete Hnone.
  apply (main_urljoin_raises _ _ _ _ _ page); [done|].
  rewrite scrape_rows_spec, decide_False; [done|].
  intros Hall. rewrite Forall_forall in Hall.
  destruct (Hall row) as [full_link Hfull].
  - by apply list_elem_of_filter.
  - congruence.
Qed.

Lemma filter_to_csv_quiet log :
  Forall no_write log -> filter is_to_csv log = [].
Proof.
  induction 1 as [|e log [He _] _ IH]; [done|].
  rewrite filter_cons, IH. rewrite decide_False; [done|].
  intros Ht. by rewrite He in Ht.
Qed.

(** X13: a run makes at most one write attempt; the attempt is to the file
    given to [main], and no page is requested after it. *)
Theorem write_is_last_action (url filename : string) :
  let log := snd (main urljoin requests_get to_csv url filename []) in
  (length (filter is_to_csv log) <= 1)%nat /\
  forall i f dataframe ok,
    log !! i = Some (ToCsv f dataframe ok) ->
    f = filename /\ ok = written (to_csv filename dataframe) /\
    forall j e, log !! j = Some e -> is_get e = true -> (j < i)%nat.
Proof.
  intros log. subst log.
  destruct (main urljoin requests_get to_csv url filename []) as [r log] eqn:Hrun.
  cbn [snd].
  destruct (main_write_shape _ _ _ _ _ _ _ Hrun)
    as [Hnone|(log0 & t & Hlog0 & _ & ->)].
  - split.
    + rewrite filter_to_csv_quiet by done. simpl. lia.
    + intros i f df ok Hi. apply list_elem_of_lookup_2 in Hi.
      rewrite Forall_forall in Hnone. by destruct (Hnone _ Hi).
  - assert (Hquiet : filter is_to_csv log0 = [])
      by (by apply filter_to_csv_quiet).
    split.
    + rewrite filter_app, Hquiet. by destruct (to_csv filename t); simpl; lia.
    + intros i f df ok Hi.
      assert (Hlt : ~ (i < length log0)%nat).
      { intros Hlt. rewrite lookup_app_l in Hi by done.
        apply list_elem_of_lookup_2 in Hi. rewrite Forall_forall in Hlog0.
        by destruct (Hlog0 _ Hi). }
      rewrite lookup_app_r in Hi by lia.
      assert (Hfirst : (i - length log0)%nat = 0%nat /\
                       f = filename /\ df = t /\
                       ok = written (to_csv filename t)).
      { destruct (to_csv filename t);
          destruct (i - length log0)%nat as [|[|[|k]]]; simpl in Hi;
          try discriminate; by injection Hi as <- <- <-. }
      destruct Hfirst as (Hi0 & -> & -> & ->).
      split; [done|]. split; [done|].
      intros j e Hj Hget.
      destruct (decide (j < length log0)%nat) as [|Hge]; [lia|].
      rewrite lookup_app_r in Hj by lia.
      destruct (to_csv filename t);
        destruct (j - length log0)%nat as [|[|[|k]]]; simpl in Hj;
        try discriminate; injection Hj as <-; discriminate.
Qed.

End RunFurther.

Lemma listing_failure_stops_run_witness :
  (exists log,
     main sample_urljoin offline_requests_get disk_ok "url/" "out.csv" [] =
       (Ok tt, log) /\
     log = [Print MsgDownloadingMain; Get "url/" false; Print MsgDownloadError;
            Print MsgMainPageFailed] /\
     filter is_get log = [Get "url/" false] /\
     filter is_to_csv log = []) /\
  (exists log,
     main sample_urljoin unparsable_host_requests_get disk_ok "url/" "out.csv" [] =
       (Raise (OtherError "LocationParseError"), log) /\
     log = [Print MsgDownloadingMain; Get "url/" false] /\
     filter is_get log = [Get "url/" false] /\
     filter is_to_csv log = []).
Proof.
  split.
  - apply (listing_failure_stops_run sample_urljoin offline_requests_get disk_ok
             "url/" "out.csv"). reflexivity.
  - apply (listing_failure_stops_run sample_urljoin
             unparsable_host_requests_get disk_ok "url/" "out.csv").
    reflexivity.
Defined.

Lemma pages_requested_in_order_witness :
  requested_urls
    (snd (main sample_urljoin sample_requests_get disk_ok "url/" "out.csv" [])) =
  ["url/"; "url/linkA"; "url/linkB"] /\
  requested_urls
    (snd (main sample_urljoin unparsable_requests_get disk_ok "url/"
            "out.csv" [])) =
  ["url/"; "url/linkA"; "url/linkB"] /\
  requested_urls
    (snd (main strict_urljoin (fun _ _ => Page bad_href_listing) disk_ok
            "url/" "out.csv" [])) =
  ["url/"].
Proof.
  split; [|split].
  - rewrite (pages_requested_in_order sample_urljoin sample_requests_get disk_ok
               "url/" "out.csv" sample_listing); reflexivity.
  - rewrite (pages_requested_in_order sample_urljoin unparsable_requests_get
               disk_ok "url/" "out.csv" sample_listing); reflexivity.
  - rewrite (pages_requested_in_order strict_urljoin
               (fun _ _ => Page bad_href_listing) disk_ok
               "url/" "out.csv" bad_href_listing); reflexivity.
Defined.


Lemma detail_loop_keeps_identity_witness :
  (exists records log',
     for_each (fetch_details sample_requests_get)
       [stub "A" "Alpha" "url/linkA"; stub "B" "Bravo" "url/linkB"]
       [Get "url/" true] = (Ok records, log') /\
     code <$> records = [Some "A"; Some "B"] /\
     requests_made log' = 3%nat) /\
  (exists log',
     for_each (fetch_details unparsable_requests_get)
       [stub "A" "Alpha" "url/linkA"; stub "B" "Bravo" "url/linkB";
        stub "C" "Charlie" "url/linkC"]
       [Get "url/" true] = (Raise (OtherError "LocationParseError"), log') /\
     requests_made log' = 3%nat).
Proof.
  split.
  - pose proof (detail_loop_keeps_identity sample_requests_get
                  [stub "A" "Alpha" "url/linkA"; stub "B" "Bravo" "url/linkB"]
                  [Get "url/" true]) as H.
    destruct H as (records & log' & Hrun & _ & Hcode & _ & _ & Hn).
    + repeat constructor; by eexists.
    + exists records, log'. split; [exact Hrun|].
      split; [exact Hcode | exact Hn].
  - pose proof (detail_loop_keeps_identity unparsable_requests_get
                  [stub "A" "Alpha" "url/linkA"; stub "B" "Bravo" "url/linkB";
                   stub "C" "Charlie" "url/linkC"]
                  [Get "url/" true]) as H.
    destruct H as (m & log' & _ & _ & Hrun & Hn).
    + repeat constructor; by eexists.
    + exists log'. split; [exact Hrun | exact Hn].
Defined.

Lemma successful_run_witness :
  main sample_urljoin sample_requests_get disk_ok "url/" "out.csv" [] =
  (Ok tt,
   [Print MsgDownloadingMain; Get "url/" true; Print MsgGettingList;
    Print (MsgFound 2); Print MsgDetailsStart;
    Get "url/linkA" true; Get "url/linkB" false; Print MsgDownloadError;
    Print MsgDetailsDone; Print (MsgExporting "out.csv");
    ToCsv "out.csv"
      (mkTable
         ["code"; "location"; "registered"; "envelopes"; "valid";
          "PartyX"; "PartyY"]
         [[CStr "A"; CStr "Alpha"; CInt 1000; CInt 900; CInt 0;
           CInt 100; CInt 50];
          [CStr "B"; CStr "Bravo"; CStr "N/A"; CStr "N/A"; CStr "N/A";
           CInt 0; CInt 0]])
      true;
    Print (MsgSaved "out.csv"); Print MsgProgramDone]).
Proof.
  rewrite (successful_run sample_urljoin sample_requests_get disk_ok
             "url/" "out.csv" sample_listing
             [stub "A" "Alpha" "url/linkA"; stub "B" "Bravo" "url/linkB"]
             (mkTable
                ["code"; "location"; "registered"; "envelopes"; "valid";
                 "PartyX"; "PartyY"]
                [[CStr "A"; CStr "Alpha"; CInt 1000; CInt 900; CInt 0;
                  CInt 100; CInt 50];
                 [CStr "B"; CStr "Bravo"; CStr "N/A"; CStr "N/A"; CStr "N/A";
                  CInt 0; CInt 0]])).
  - reflexivity.
  - reflexivity.
  - reflexivity.
  - reflexivity.
  - by vm_compute.
  - reflexivity.
Defined.

Lemma uncaught_write_exception_witness :
  main sample_urljoin sample_requests_get disk_unsupported "url/" "out.csv" [] =
  (Raise (OtherError "ImportError"),
   [Print MsgDownloadingMain; Get "url/" true; Print MsgGettingList;
    Print (MsgFound 2); Print MsgDetailsStart;
    Get "url/linkA" true; Get "url/linkB" false; Print MsgDownloadError;
    Print MsgDetailsDone; Print (MsgExporting "out.csv");
    ToCsv "out.csv"
      (mkTable
         ["code"; "location"; "registered"; "envelopes"; "valid";
          "PartyX"; "PartyY"]
         [[CStr "A"; CStr "Alpha"; CInt 1000; CInt 900; CInt 0;
           CInt 100; CInt 50];
          [CStr "B"; CStr "Bravo"; CStr "N/A"; CStr "N/A"; CStr "N/A";
           CInt 0; CInt 0]])
      false]).
Proof.
  destruct (uncaught_write_exception sample_urljoin sample_requests_get
              disk_unsupported "url/" "out.csv" sample_listing
              [stub "A" "Alpha" "url/linkA"; stub "B" "Bravo" "url/linkB"]
              (mkTable
                 ["code"; "location"; "registered"; "envelopes"; "valid";
                  "PartyX"; "PartyY"]
                 [[CStr "A"; CStr "Alpha"; CInt 1000; CInt 900; CInt 0;
                   CInt 100; CInt 50];
                  [CStr "B"; CStr "Bravo"; CStr "N/A"; CStr "N/A"; CStr "N/A";
                   CInt 0; CInt 0]])
              (OtherError "ImportError")) as [_ Hmain].
  - reflexivity.
  - reflexivity.
  - reflexivity.
  - by vm_compute.
  - reflexivity.
  - rewrite Hmain. reflexivity.
Defined.

Lemma unresolvable_link_stops_run_witness :
  main strict_urljoin (fun _ _ => Page bad_href_listing) disk_ok
    "url/" "out.csv" [] =
  (Raise ValueError,
   [Print MsgDownloadingMain; Get "url/" true; Print MsgGettingList]).
Proof.
  apply (unresolvable_link_stops_run strict_urljoin
           (fun _ _ => Page bad_href_listing) disk_ok "url/" "out.csv"
           bad_href_listing
           (listing_row (Some (element "A" (Some bad_href)))
              (Some (element "Alpha" None)))).
  - reflexivity.
  - apply list_elem_of_lookup. exists 0%nat. reflexivity.
  - exists (element "A" (Some bad_href)), (element "Alpha" None), bad_href.
    split_and!; (reflexivity || discriminate).
  - reflexivity.
Defined.

Lemma write_is_last_action_witness :
  (length (filter is_to_csv
             (snd (main sample_urljoin sample_requests_get disk_ok "url/"
                     "out.csv" []))) <= 1)%nat /\
  Forall (fun e => is_get e = false)
    (drop 11
       (snd (main sample_urljoin sample_requests_get disk_ok "url/"
               "out.csv" []))).
Proof.
  destruct (write_is_last_action sample_urljoin sample_requests_get disk_ok
              "url/" "out.csv") as [Hone Hlast].
  split; [exact Hone|].
  edestruct (Hlast 10%nat) as (_ & _ & Hget); [by vm_compute|].
  apply Forall_lookup. intros k e Hk. rewrite lookup_drop in Hk.
  destruct (is_get e) eqn:He; [|done].
  apply Hget in Hk; [lia | exact He].
Defined.

(** ** Flattener: what the order of the columns depends on *)

Lemma sort_parties_any_order_witness :
  (l ← temp_list
         (reverse (map_to_list
                     (collect_all_parties [record_A; record_B])));
   Ok (snd <$> list_sort l)) =
  sort_parties (collect_all_parties [record_A; record_B]).
Proof. apply sort_parties_any_order, reverse_Permutation. Defined.

Lemma id_key_le_trans : Transitive id_key_le.
Proof.
  intros [n1 i1] [n2 i2] [n3 i3]. unfold id_key_le. simpl.
  intros [?|[-> H12]] [?|[-> H23]]; [left; lia..|].
  right. split; [done | by etrans].
Qed.

Lemma id_key_le_antisym : AntiSymm (=) id_key_le.
Proof.
  intros [n1 i1] [n2 i2]. unfold id_key_le. simpl.
  intros [?|[-> H12]] [?|[? H21]]; try (exfalso; lia).
  by rewrite (anti_symm String.le _ _ H12 H21).
Qed.

Lemma not_above_id_key a b : not_above a b -> id_key_le (id_key a) (id_key b).
Proof.
  rewrite not_above_spec. unfold id_key_le, id_key. simpl.
  intros [?|[? [[_ ?]|[-> _]]]]; [by left | by right | right].
  split; [done | reflexivity].
Qed.

Lemma all_party_ids_perm ms1 ms2 :
  ms1 ≡ₚ ms2 -> all_party_ids ms1 = all_party_ids ms2.
Proof. intros Hperm. unfold all_party_ids. by rewrite Hperm. Qed.

Lemma sorted_keys municipalities_data sorted_parties :
  sort_parties (collect_all_parties municipalities_data) = Ok sorted_parties ->
  exists (keys : list (Z * string)),
    fst <$> sorted_parties = snd <$> keys /\
    Sorted id_key_le keys /\ NoDup keys /\
    forall n party_number,
      (n, party_number) ∈ keys <->
      party_number ∈ all_party_ids municipalities_data /\
      py_int party_number = Some n.
Proof.
  intros Hsort.
  pose proof (sort_parties_NoDup _ _ Hsort) as Hnd.
  pose proof (sort_parties_dom _ _ Hsort) as Hdom.
  destruct (sort_parties_ok _ _ Hsort) as (keyed & -> & Hsorted & Hall & _).
  exists (id_key <$> keyed).
  assert (Hids : fst <$> (snd <$> keyed) = snd <$> (id_key <$> keyed)).
  { rewrite <- !list_fmap_compose. by apply list_fmap_ext. }
  split; [exact Hids|]. split.
  { eapply Sorted_fmap; [|exact Hsorted]. apply not_above_id_key. }
  split.
  { apply (NoDup_fmap_1 snd). by rewrite <- Hids. }
  rewrite Forall_forall in Hall.
  intros n k. rewrite <- collect_all_parties_dom, <- Hdom, Hids. split.
  - intros Hin. split.
    + apply list_elem_of_fmap. by exists (n, k).
    + apply list_elem_of_fmap in Hin as (x & [= -> ->] & Hx). by apply Hall.
  - intros [Hin Hn]. apply list_elem_of_fmap in Hin as ([n' k'] & -> & Hin).
    simpl in Hn. pose proof Hin as Hin'.
    apply list_elem_of_fmap in Hin' as (x & [= -> ->] & Hx).
    apply Hall in Hx. rewrite Hx in Hn. by injection Hn as <-.
Qed.

(** X15: the order of the party columns does not depend on the order of the
    records: two lists with the same records give the same sequence of party
    ids (only the names of the columns may differ). *)
Theorem column_order_ignores_record_order (ms1 ms2 : list municipality)
    (sorted1 sorted2 : list (string * string)) :
  ms1 ≡ₚ ms2 ->
  sort_parties (collect_all_parties ms1) = Ok sorted1 ->
  sort_parties (collect_all_parties ms2) = Ok sorted2 ->
  fst <$> sorted1 = fst <$> sorted2.
Proof.
  intros Hperm H1 H2.
  destruct (sorted_keys _ _ H1) as (k1 & -> & Hs1 & Hnd1 & Hin1).
  destruct (sorted_keys _ _ H2) as (k2 & -> & Hs2 & Hnd2 & Hin2).
  f_equal. pose proof id_key_le_trans. pose proof id_key_le_antisym.
  apply (Sorted_unique id_key_le); [done..|].
  apply NoDup_Permutation; [done..|].
  intros [n k]. by rewrite Hin1, Hin2, (all_party_ids_perm _ _ Hperm).
Qed.

Lemma column_order_ignores_record_order_witness :
  fst <$> [("1", "PartyX"); ("2", "PartyY")] =
  fst <$> [("1", "PartyX"); ("2", "Other")].
Proof.
  apply (column_order_ignores_record_order
           [record_A; record_B_renamed] [record_B_renamed; record_A]).
  - apply Permutation_swap.
  - by vm_compute.
  - by vm_compute.
Defined.

(** ** From the pages to the columns *)


Lemma detail_records_lookup requests_get n ms i :
  detail_records requests_get n ms !! i =
  (fun m => with_details m
              (fetched (requests_get (n + i)%nat (default "" (link m)))))
    <$> ms !! i.
Proof.
  revert n i. induction ms as [|m ms IH]; intros n i; [done|].
  destruct i as [|i]; simpl.
  - by rewrite Nat.add_0_r.
  - by rewrite IH, Nat.add_succ_r.
Qed.

Lemma with_details_stub c name url soup :
  with_details (stub c name url) (Some soup) =
  mkMunicipality (Some c) (Some name) (Some url)
    (Some (scrape_field soup REGISTERED_VOTERS_SELECTOR))
    (Some (scrape_field soup ENVELOPES_SELECTOR))
    (Some (scrape_field soup VALID_VOTES_SELECTOR))
    (Some (parties_of_page soup)).
Proof. reflexivity. Qed.

Section Columns.

Variable urljoin : string -> string -> option string.
Variable requests_get : nat -> string -> response.
Variable to_csv : string -> table -> write_result.



(** X17: after the detail loop over the stubs of a listing, a municipality
    holds the keys of the details exactly when its own request was served,
    and then with the values scraped from its own page, next to its code,
    name and link; a municipality whose request failed with a
    [RequestException] is still its stub. *)
Theorem details_iff_request_succeeded (base_url : string) (rows : list Tag)
    (stubs records : list municipality) (log log' : list event)
    (i : nat) (s r : municipality) :
  scrape_rows urljoin base_url rows = Ok stubs ->
  for_each (fetch_details requests_get) stubs log = (Ok records, log') ->
  stubs !! i = Some s ->
  records !! i = Some r ->
  match requests_get (requests_made log + i) (default "" (link s)) with
  | Page soup =>
      code r = code s /\ location r = location s /\ link r = link s /\
      registered r = Some (scrape_field soup REGISTERED_VOTERS_SELECTOR) /\
      envelopes r = Some (scrape_field soup ENVELOPES_SELECTOR) /\
      valid r = Some (scrape_field soup VALID_VOTES_SELECTOR) /\
      parties r = Some (parties_of_page soup)
  | RequestException =>
      r = s /\ registered r = None /\ envelopes r = None /\ valid r = None /\
      parties r = None
  | Raises _ => False
  end.
Proof.
  intros Hstubs Hloop Hs Hr.
  rewrite for_each_fetch_details in Hloop by (by eapply stubs_have_links).
  destruct (first_raise requests_get (requests_made log) stubs)
    as [[k e]|] eqn:Hraise; [done|].
  injection Hloop as <- _.
  rewrite detail_records_lookup, Hs in Hr. injection Hr as <-.
  pose proof (first_raise_none _ _ _ _ _ Hraise Hs) as Hnone.
  destruct (stub_fields urljoin base_url rows stubs s Hstubs) as (c & nm & u & ->).
  { by eapply list_elem_of_lookup_2. }
  destruct (requests_get (requests_made log + i)
              (default "" (link (stub c nm u)))) as [soup| |e];
    cbn [fetched]; [|done..].
  by rewrite with_details_stub.
Qed.

End Columns.


Lemma details_iff_request_succeeded_witness :
  (forall r,
     [with_details (stub "A" "Alpha" "url/linkA") (Some sample_detail);
      stub "B" "Bravo" "url/linkB"] !! 0%nat = Some r ->
     registered r = Some 1000 /\ parties r = Some (parties_of_page sample_detail)) /\
  (forall r,
     [with_details (stub "A" "Alpha" "url/linkA") (Some sample_detail);
      stub "B" "Bravo" "url/linkB"] !! 1%nat = Some r ->
     r = stub "B" "Bravo" "url/linkB").
Proof.
  split; intros r Hr.
  - pose proof (details_iff_request_succeeded sample_urljoin sample_requests_get
                  "url/" (select sample_listing MAIN_TABLE_SELECTOR)
                  _ _ [Get "url/" true] _ 0 (stub "A" "Alpha" "url/linkA") r
                  eq_refl eq_refl eq_refl Hr) as H.
    cbn in H. destruct H as (_ & _ & _ & Hreg & _ & _ & Hps).
    split; [exact Hreg | exact Hps].
  - pose proof (details_iff_request_succeeded sample_urljoin sample_requests_get
                  "url/" (select sample_listing MAIN_TABLE_SELECTOR)
                  _ _ [Get "url/" true] _ 1 (stub "B" "Bravo" "url/linkB") r
                  eq_refl eq_refl eq_refl Hr) as H.
    cbn in H. by destruct H as [H _].
Defined.
